(** * Google Workspace MCP server: tool catalog, dispatcher and handlers

    A shallow embedding of [GoogleWorkspaceServer] (the TypeScript server
    with the HTTP shim, and its compiled stdio variant [build/index.js],
    whose handlers are the same): the [ListTools] catalog, the [CallTool]
    dispatcher and the eight [handle...] methods.

    The handlers are [async] methods that talk to the Gmail and Calendar
    clients of [googleapis].  They are embedded in a small monad that
    threads the list of provider calls issued so far and carries
    exceptions, over a model of the JavaScript values they manipulate. *)

From Stdlib Require Import String Ascii List NArith ZArith Bool Lia DecimalString.
Import ListNotations.
Local Open Scope list_scope.
Local Open Scope string_scope.
Set Warnings "-register-all".

(** ** JavaScript values

    Arguments and provider payloads are JSON data.  Strings are kept as
    their UTF-8 bytes (what [Buffer.from] produces).  Numbers are the
    integers that JavaScript prints in plain decimal: the handlers create
    one number (the default [10]), test numbers for zero (which is falsy)
    and otherwise hand them on.  Objects keep their keys in insertion
    order, as [JSON.stringify] prints them. *)

Inductive value : Type :=
| VUndefined
| VNull
| VBool (b : bool)
| VNum (n : Z)
| VStr (s : string)
| VArr (items : list value)
| VObj (fields : list (string * value)).

Module Js.

(** [undefined] and [null]. *)
Definition nullish (v : value) : bool :=
  match v with
  | VUndefined | VNull => true
  | _ => false
  end.

(** [Boolean(v)]: what [if (v)], [v || d], [c ? a : b] and
    [filter(Boolean)] test. *)
Definition truthy (v : value) : bool :=
  match v with
  | VUndefined | VNull => false
  | VBool b => b
  | VNum n => negb (Z.eqb n 0)
  | VStr s => negb (String.eqb s EmptyString)
  | VArr _ | VObj _ => true
  end.

(** [a || b]. *)
Definition or_else (a b : value) : value :=
  if truthy a then a else b.

(** Own-property lookup in an object literal or parsed object. *)
Fixpoint lookup (k : string) (fields : list (string * value)) : option value :=
  match fields with
  | [] => None
  | (k', v) :: rest => if String.eqb k k' then Some v else lookup k rest
  end.

Definition has_key (k : string) (fields : list (string * value)) : bool :=
  match lookup k fields with
  | Some _ => true
  | None => false
  end.

(** [v.k] on a value that is neither [undefined] nor [null].  The handlers
    read only plain data names ([id], [messages], [items], [message], ...),
    none of which a string, number, boolean or array carries. *)
Definition field (k : string) (v : value) : value :=
  match v with
  | VObj fields =>
      match lookup k fields with
      | Some x => x
      | None => VUndefined
      end
  | _ => VUndefined
  end.

(** [v?.k] *)
Definition opt_field (k : string) (v : value) : value :=
  if nullish v then VUndefined else field k v.

(** A destructuring default: [{ k = d }] takes [d] only for [undefined]. *)
Definition default_to (d v : value) : value :=
  match v with
  | VUndefined => d
  | _ => v
  end.

(** [a === 'literal'] *)
Definition is_string (lit : string) (v : value) : bool :=
  match v with
  | VStr s => String.eqb s lit
  | _ => false
  end.

(** TypeErrors the runtime raises in the handlers.  The wording of their
    [message] belongs to the engine. *)
Inductive type_error : Type :=
| CannotDestructure (base : value)
| CannotRead (base : value) (key : string)
| NotAFunction (callee : string)
| NoPrimitiveValue.

Definition number_to_string (n : Z) : string :=
  NilZero.string_of_int (Z.to_int n).

Fixpoint join_strings (sep : string) (parts : list string) : string :=
  match parts with
  | [] => EmptyString
  | [p] => p
  | p :: rest => p ++ sep ++ join_strings sep rest
  end.

Fixpoint sequence {E A : Type} (l : list (A + E)) : list A + E :=
  match l with
  | [] => inl []
  | inr e :: _ => inr e
  | inl a :: rest =>
      match sequence rest with
      | inl rest' => inl (a :: rest')
      | inr e => inr e
      end
  end.

(** [String(v)], the conversion a template literal and [join] apply.  A
    parsed object prints as [[object Object]] unless it has an own
    [toString] entry: that entry is data, not a function, so neither it nor
    the inherited [valueOf] yields a primitive.  An array joins its
    elements with a comma, [undefined] and [null] printing as nothing. *)
Fixpoint to_string (v : value) : string + type_error :=
  match v with
  | VUndefined => inl "undefined"
  | VNull => inl "null"
  | VBool true => inl "true"
  | VBool false => inl "false"
  | VNum n => inl (number_to_string n)
  | VStr s => inl s
  | VArr items =>
      match sequence (map (fun x => if nullish x then inl EmptyString
                                    else to_string x) items) with
      | inl parts => inl (join_strings "," parts)
      | inr e => inr e
      end
  | VObj fields =>
      if has_key "toString" fields then inr NoPrimitiveValue
      else inl "[object Object]"
  end.

(** [items.join(sep)] *)
Definition join (sep : string) (items : list value) : string + type_error :=
  match sequence (map (fun x => if nullish x then inl EmptyString
                                else to_string x) items) with
  | inl parts => inl (join_strings sep parts)
  | inr e => inr e
  end.

End Js.

(** ** [JSON.stringify(v, null, 2)] *)

Module Json.

Definition dquote : ascii := "034"%char.
Definition backslash : ascii := "092"%char.
Definition newline : string := String "010"%char EmptyString.

Definition hex_digit (n : N) : ascii :=
  match String.get (N.to_nat n) "0123456789abcdef" with
  | Some c => c
  | None => "0"%char
  end.

(** One code unit of a quoted JSON string. *)
Definition escape (c : ascii) : string :=
  let n := N_of_ascii c in
  if Ascii.eqb c dquote then String backslash (String dquote EmptyString)
  else if Ascii.eqb c backslash then String backslash (String backslash EmptyString)
  else if N.eqb n 8 then String backslash "b"
  else if N.eqb n 9 then String backslash "t"
  else if N.eqb n 10 then String backslash "n"
  else if N.eqb n 12 then String backslash "f"
  else if N.eqb n 13 then String backslash "r"
  else if N.ltb n 32 then
    String backslash
      ("u00" ++ String (hex_digit (N.shiftr n 4))
                  (String (hex_digit (N.land n 15)) EmptyString))
  else String c EmptyString.

Fixpoint escape_all (s : string) : string :=
  match s with
  | EmptyString => EmptyString
  | String c rest => escape c ++ escape_all rest
  end.

Definition quote (s : string) : string :=
  String dquote (escape_all s ++ String dquote EmptyString).

(** Serialization at a given current indentation, two spaces a level.
    [None] is the [undefined] that [JSON.stringify] returns for a value it
    does not print; inside an array it prints as [null], inside an object
    the entry is left out. *)
Fixpoint serialize (indent : string) (v : value) : option string :=
  match v with
  | VUndefined => None
  | VNull => Some "null"
  | VBool true => Some "true"
  | VBool false => Some "false"
  | VNum n => Some (Js.number_to_string n)
  | VStr s => Some (quote s)
  | VArr items =>
      let inner := indent ++ "  " in
      match map (fun x => match serialize inner x with
                          | Some t => t
                          | None => "null"
                          end) items with
      | [] => Some "[]"
      | parts =>
          Some ("[" ++ newline ++ inner
                  ++ Js.join_strings ("," ++ newline ++ inner) parts
                  ++ newline ++ indent ++ "]")
      end
  | VObj fields =>
      let inner := indent ++ "  " in
      match flat_map (fun kv => match serialize inner (snd kv) with
                                | Some t => [quote (fst kv) ++ ": " ++ t]
                                | None => []
                                end) fields with
      | [] => Some "{}"
      | parts =>
          Some ("{" ++ newline ++ inner
                  ++ Js.join_strings ("," ++ newline ++ inner) parts
                  ++ newline ++ indent ++ "}")
      end
  end.

Definition stringify (v : value) : option string :=
  serialize EmptyString v.

End Json.

(** ** [Buffer.from(s).toString('base64')] and the base64url rewriting *)

Module Base64.

Definition alphabet : string :=
  "ABCDEFGHIJKLMNOPQRSTUVWXYZabcdefghijklmnopqrstuvwxyz0123456789+/".

Definition pad : ascii := "="%char.

Definition digit (n : N) : ascii :=
  match String.get (N.to_nat n) alphabet with
  | Some c => c
  | None => pad
  end.

Definition sextets1 (a : N) : string :=
  String (digit (N.shiftr a 2))
    (String (digit (N.shiftl (N.land a 3) 4))
       (String pad (String pad EmptyString))).

Definition sextets2 (a b : N) : string :=
  String (digit (N.shiftr a 2))
    (String (digit (N.lor (N.shiftl (N.land a 3) 4) (N.shiftr b 4)))
       (String (digit (N.shiftl (N.land b 15) 2))
          (String pad EmptyString))).

Definition sextets3 (a b c : N) : string :=
  String (digit (N.shiftr a 2))
    (String (digit (N.lor (N.shiftl (N.land a 3) 4) (N.shiftr b 4)))
       (String (digit (N.lor (N.shiftl (N.land b 15) 2) (N.shiftr c 6)))
          (String (digit (N.land c 63)) EmptyString))).

(** Standard base64 with padding, three bytes to four characters. *)
Fixpoint encode (bytes : string) : string :=
  match bytes with
  | EmptyString => EmptyString
  | String a EmptyString => sextets1 (N_of_ascii a)
  | String a (String b EmptyString) => sextets2 (N_of_ascii a) (N_of_ascii b)
  | String a (String b (String c rest)) =>
      sextets3 (N_of_ascii a) (N_of_ascii b) (N_of_ascii c) ++ encode rest
  end.

(** [s.replace(/c/g, d)] for a single character [c]. *)
Fixpoint replace_all (c d : ascii) (s : string) : string :=
  match s with
  | EmptyString => EmptyString
  | String a rest =>
      String (if Ascii.eqb a c then d else a) (replace_all c d rest)
  end.

(** [s.replace(/c+$/, '')]: the run of [c] at the end of the string goes. *)
Fixpoint strip_trailing (c : ascii) (s : string) : string :=
  match s with
  | EmptyString => EmptyString
  | String a rest =>
      match strip_trailing c rest with
      | EmptyString => if Ascii.eqb a c then EmptyString else String a EmptyString
      | kept => String a kept
      end
  end.

(** The chain of [handleSendEmail]:
    [.toString('base64').replace(/\+/g, '-').replace(/\//g, '_').replace(/=+$/, '')]. *)
Definition encode_url (message : string) : string :=
  strip_trailing "="%char
    (replace_all "/"%char "_"%char
       (replace_all "+"%char "-"%char (encode message))).

End Base64.

(** ** Provider calls, exceptions and the handler monad *)

(** The client methods of [googleapis] the handlers call. *)
Inductive api : Type :=
| gmail_users_messages_list
| gmail_users_messages_get
| gmail_users_messages_send
| gmail_users_messages_modify
| calendar_events_list
| calendar_events_insert
| calendar_events_patch
| calendar_events_delete.

(** One outbound request: the method and the parameter object passed. *)
Record call : Type := Call { method : api; params : value }.

(** How the promise of a request settles: with a response, of which the
    handlers read only [data], or with a thrown value. *)
Inductive settled : Type :=
| Resolved (data : value)
| Rejected (reason : value).

(** [ErrorCode] of the MCP SDK (the JSON-RPC codes); the server raises
    only [MethodNotFound]. *)
Inductive ErrorCode : Type :=
| ParseError
| InvalidRequest
| MethodNotFound
| InvalidParams
| InternalError.

(** What a [throw] or a rejected promise carries. *)
Inductive thrown : Type :=
| ProviderError (reason : value)
| TypeError (e : Js.type_error)
| McpError (code : ErrorCode) (message : string).

(** What the process sees around it: the provider, whose answer to a
    request may depend on the requests issued before it; the clock behind
    [new Date().toISOString()]; the zone behind
    [Intl.DateTimeFormat().resolvedOptions().timeZone]; and the engine's
    wording of a TypeError. *)
Record host : Type := Host {
  provider : list call -> call -> settled;
  now : string;
  timeZone : string;
  type_error_message : Js.type_error -> string
}.

(** A computation reads the host, extends the trace of issued calls and
    returns or throws. *)
Definition M (A : Type) : Type :=
  host -> list call -> list call * (A + thrown).

Definition ret {A : Type} (a : A) : M A :=
  fun _ trace => (trace, inl a).

Definition throw {A : Type} (e : thrown) : M A :=
  fun _ trace => (trace, inr e).

Definition bind {A B : Type} (m : M A) (k : A -> M B) : M B :=
  fun h trace =>
    match m h trace with
    | (trace', inl a) => k a h trace'
    | (trace', inr e) => (trace', inr e)
    end.

Notation "x <- m ;; k" := (bind m (fun x => k))
  (at level 61, m at next level, right associativity).

(** [try { body } catch (error) { handler }] *)
Definition try_catch {A : Type} (body : M A) (handler : thrown -> M A) : M A :=
  fun h trace =>
    match body h trace with
    | (trace', inl a) => (trace', inl a)
    | (trace', inr e) => handler e h trace'
    end.

(** [await client.method(params)], yielding [response.data]. *)
Definition await (c : call) : M value :=
  fun h trace =>
    (trace ++ [c],
     match provider h trace c with
     | Resolved data => inl data
     | Rejected reason => inr (ProviderError reason)
     end)%list.

Definition ask {A : Type} (f : host -> A) : M A :=
  fun h trace => (trace, inl (f h)).

Definition lift {A : Type} (r : A + Js.type_error) : M A :=
  match r with
  | inl a => ret a
  | inr e => throw (TypeError e)
  end.

(** [v.k]: a TypeError on [undefined] and [null]. *)
Definition get (k : string) (v : value) : M value :=
  if Js.nullish v then throw (TypeError (Js.CannotRead v k))
  else ret (Js.field k v).

(** [const { ... } = v]: a TypeError on [undefined] and [null]. *)
Definition destructure (v : value) : M unit :=
  if Js.nullish v then throw (TypeError (Js.CannotDestructure v))
  else ret tt.

(** [`${v}`] *)
Definition interpolate (v : value) : M string :=
  lift (Js.to_string v).

(** [error.message] in a [catch] block.  No handler catches an [McpError]
    (the dispatcher throws it outside every [try]); its case keeps the text
    given to the constructor, without the code the SDK puts before it. *)
Definition error_message (error : thrown) : M value :=
  match error with
  | ProviderError reason => get "message" reason
  | TypeError e => ask (fun h => VStr (type_error_message h e))
  | McpError _ message => ret (VStr message)
  end.

(** [Promise.all(ps)] over promises created in list order: every one is
    started, so all their requests are issued; the result is the list of
    their values, or a rejection when one of them rejects (the earliest in
    list order here; the runtime reports the one that settles first). *)
Fixpoint promise_all {A : Type} (ps : list (M A)) : M (list A) :=
  match ps with
  | [] => ret []
  | p :: rest =>
      fun h trace =>
        match p h trace with
        | (trace1, r) =>
            match promise_all rest h trace1 with
            | (trace2, rs) =>
                (trace2,
                 match r, rs with
                 | inl a, inl others => inl (a :: others)
                 | inr e, _ => inr e
                 | inl _, inr e => inr e
                 end)
            end
        end
  end.

(** [items.map(f)] for a synchronous [f]: the first exception ends it. *)
Fixpoint map_sync {A B : Type} (f : A -> M B) (items : list A) : M (list B) :=
  match items with
  | [] => ret []
  | x :: rest => y <- f x ;; ys <- map_sync f rest ;; ret (y :: ys)
  end.

(** ** Tool results *)

Record TextContent : Type := Text { type : string; text : option string }.

(** [isError] is [None] where the returned object has no such property;
    [text] is [None] where it holds [undefined]. *)
Record ToolResult : Type := Result {
  content : list TextContent;
  isError : option bool
}.

(** [{ content: [{ type: 'text', text }] }] *)
Definition success (t : option string) : ToolResult :=
  {| content := [ {| type := "text"; text := t |} ]; isError := None |}.

(** [{ content: [{ type: 'text', text }], isError: true }] *)
Definition failure (t : string) : ToolResult :=
  {| content := [ {| type := "text"; text := Some t |} ]; isError := Some true |}.

(** The shared shape of the [catch] blocks:
    [text: `<prefix>${error.message}`, isError: true]. *)
Definition report (prefix : string) (error : thrown) : M ToolResult :=
  m <- error_message error ;;
  s <- interpolate m ;;
  ret (failure (prefix ++ s)).

(** ** The Gmail handlers *)

(** [headers.find((h) => h.name === name)] on an array. *)
Fixpoint find_named (name : string) (headers : list value) : M value :=
  match headers with
  | [] => ret VUndefined
  | h :: rest =>
      n <- get "name" h ;;
      if Js.is_string name n then ret h else find_named name rest
  end.

(** [headers?.find((h) => h.name === name)?.value || ''] *)
Definition header_value (name : string) (headers : value) : M value :=
  match headers with
  | VUndefined | VNull => ret (VStr EmptyString)
  | VArr hs =>
      h <- find_named name hs ;;
      ret (Js.or_else (Js.opt_field "value" h) (VStr EmptyString))
  | _ => throw (TypeError (Js.NotAFunction "headers.find"))
  end.

(** The callback mapped over the listed messages, one fetch each. *)
Definition email_detail (msg : value) : M value :=
  id <- get "id" msg ;;
  detail <- await (Call gmail_users_messages_get
                     (VObj [("userId", VStr "me"); ("id", id)])) ;;
  payload <- get "payload" detail ;;
  let headers := Js.opt_field "headers" payload in
  subject <- header_value "Subject" headers ;;
  from <- header_value "From" headers ;;
  date <- header_value "Date" headers ;;
  ret (VObj [("id", id); ("subject", subject); ("from", from); ("date", date)]).

Definition handleListEmails (args : value) : M ToolResult :=
  try_catch
    (let maxResults := Js.or_else (Js.opt_field "maxResults" args) (VNum 10) in
     let query := Js.or_else (Js.opt_field "query" args) (VStr EmptyString) in
     response <- await (Call gmail_users_messages_list
                          (VObj [("userId", VStr "me");
                                 ("maxResults", maxResults);
                                 ("q", query)])) ;;
     listed <- get "messages" response ;;
     let messages := Js.or_else listed (VArr []) in
     emailDetails <-
       match messages with
       | VArr msgs => promise_all (map email_detail msgs)
       | _ => throw (TypeError (Js.NotAFunction "messages.map"))
       end ;;
     ret (success (Json.stringify (VArr emailDetails))))
    (report "Error fetching emails: ").

Definition handleSearchEmails (args : value) : M ToolResult :=
  try_catch
    (let maxResults := Js.or_else (Js.opt_field "maxResults" args) (VNum 10) in
     let query := Js.or_else (Js.opt_field "query" args) (VStr EmptyString) in
     response <- await (Call gmail_users_messages_list
                          (VObj [("userId", VStr "me");
                                 ("maxResults", maxResults);
                                 ("q", query)])) ;;
     listed <- get "messages" response ;;
     let messages := Js.or_else listed (VArr []) in
     emailDetails <-
       match messages with
       | VArr msgs => promise_all (map email_detail msgs)
       | _ => throw (TypeError (Js.NotAFunction "messages.map"))
       end ;;
     ret (success (Json.stringify (VArr emailDetails))))
    (report "Error fetching emails: ").

Definition CRLF : string := String "013"%char (String "010"%char EmptyString).

(** [c ? `<label>${c}` : ''] *)
Definition optional_line (label : string) (c : value) : M value :=
  if Js.truthy c then s <- interpolate c ;; ret (VStr (label ++ s))
  else ret (VStr EmptyString).

(** The [message] of [handleSendEmail]: the eight-entry array, then
    [.filter(Boolean).join('\r\n')]. *)
Definition message (to subject body cc bcc : value) : M string :=
  to_line <- interpolate to ;;
  cc_line <- optional_line "Cc: " cc ;;
  bcc_line <- optional_line "Bcc: " bcc ;;
  subject_line <- interpolate subject ;;
  lift (Js.join CRLF
          (filter Js.truthy
             [VStr "Content-Type: text/html; charset=utf-8";
              VStr "MIME-Version: 1.0";
              VStr ("To: " ++ to_line);
              cc_line;
              bcc_line;
              VStr ("Subject: " ++ subject_line);
              VStr EmptyString;
              body])).

Definition handleSendEmail (args : value) : M ToolResult :=
  try_catch
    (_ <- destructure args ;;
     let to := Js.field "to" args in
     let subject := Js.field "subject" args in
     let body := Js.field "body" args in
     let cc := Js.field "cc" args in
     let bcc := Js.field "bcc" args in
     msg <- message to subject body cc bcc ;;
     let encodedMessage := Base64.encode_url msg in
     response <- await (Call gmail_users_messages_send
                          (VObj [("userId", VStr "me");
                                 ("requestBody",
                                  VObj [("raw", VStr encodedMessage)])])) ;;
     id <- get "id" response ;;
     s <- interpolate id ;;
     ret (success (Some ("Email sent successfully. Message ID: " ++ s))))
    (report "Error sending email: ").

Definition handleModifyEmail (args : value) : M ToolResult :=
  try_catch
    (_ <- destructure args ;;
     let id := Js.field "id" args in
     let addLabels := Js.default_to (VArr []) (Js.field "addLabels" args) in
     let removeLabels := Js.default_to (VArr []) (Js.field "removeLabels" args) in
     response <- await (Call gmail_users_messages_modify
                          (VObj [("userId", VStr "me");
                                 ("id", id);
                                 ("requestBody",
                                  VObj [("addLabelIds", addLabels);
                                        ("removeLabelIds", removeLabels)])])) ;;
     rid <- get "id" response ;;
     s <- interpolate rid ;;
     ret (success (Some ("Email modified successfully. Updated labels for message ID: " ++ s))))
    (report "Error modifying email: ").

(** ** The Calendar handlers *)

(** [{ dateTime: t, timeZone: Intl.DateTimeFormat().resolvedOptions().timeZone }] *)
Definition zoned (t : value) : M value :=
  zone <- ask timeZone ;;
  ret (VObj [("dateTime", t); ("timeZone", VStr zone)]).

(** [attendees.map((email) => ({ email }))] *)
Definition attendee_records (attendees : value) : M value :=
  match attendees with
  | VArr emails => ret (VArr (map (fun email => VObj [("email", email)]) emails))
  | VUndefined | VNull => throw (TypeError (Js.CannotRead attendees "map"))
  | _ => throw (TypeError (Js.NotAFunction "attendees.map"))
  end.

Definition handleCreateEvent (args : value) : M ToolResult :=
  try_catch
    (_ <- destructure args ;;
     let summary := Js.field "summary" args in
     let location := Js.field "location" args in
     let description := Js.field "description" args in
     let start := Js.field "start" args in
     let end_ := Js.field "end" args in
     let attendees := Js.default_to (VArr []) (Js.field "attendees" args) in
     start_obj <- zoned start ;;
     end_obj <- zoned end_ ;;
     records <- attendee_records attendees ;;
     let event := VObj [("summary", summary);
                        ("location", location);
                        ("description", description);
                        ("start", start_obj);
                        ("end", end_obj);
                        ("attendees", records)] in
     response <- await (Call calendar_events_insert
                          (VObj [("calendarId", VStr "primary");
                                 ("requestBody", event)])) ;;
     id <- get "id" response ;;
     s <- interpolate id ;;
     ret (success (Some ("Event created successfully. Event ID: " ++ s))))
    (report "Error creating event: ").

(** [if (v) event.k = v;] on the object built so far. *)
Definition set_if (k : string) (v : value) (event : list (string * value))
  : list (string * value) :=
  if Js.truthy v then (event ++ [(k, v)])%list else event.

(** [if (v) { event.k = { dateTime: v, timeZone: ... }; }] *)
Definition set_zoned_if (k : string) (v : value) (event : list (string * value))
  : M (list (string * value)) :=
  if Js.truthy v then z <- zoned v ;; ret (event ++ [(k, z)])%list
  else ret event.

(** [if (attendees) { event.attendees = attendees.map(...); }] *)
Definition set_attendees_if (attendees : value) (event : list (string * value))
  : M (list (string * value)) :=
  if Js.truthy attendees then
    records <- attendee_records attendees ;;
    ret (event ++ [("attendees", records)])%list
  else ret event.

(** The sparse [event] object of [handleUpdateEvent], from [{}]. *)
Definition update_patch (args : value) : M (list (string * value)) :=
  let event := [] in
  let event := set_if "summary" (Js.field "summary" args) event in
  let event := set_if "location" (Js.field "location" args) event in
  let event := set_if "description" (Js.field "description" args) event in
  event <- set_zoned_if "start" (Js.field "start" args) event ;;
  event <- set_zoned_if "end" (Js.field "end" args) event ;;
  set_attendees_if (Js.field "attendees" args) event.

Definition handleUpdateEvent (args : value) : M ToolResult :=
  try_catch
    (_ <- destructure args ;;
     let eventId := Js.field "eventId" args in
     event <- update_patch args ;;
     response <- await (Call calendar_events_patch
                          (VObj [("calendarId", VStr "primary");
                                 ("eventId", eventId);
                                 ("requestBody", VObj event)])) ;;
     id <- get "id" response ;;
     s <- interpolate id ;;
     ret (success (Some ("Event updated successfully. Event ID: " ++ s))))
    (report "Error updating event: ").

Definition handleDeleteEvent (args : value) : M ToolResult :=
  try_catch
    (_ <- destructure args ;;
     let eventId := Js.field "eventId" args in
     _ <- await (Call calendar_events_delete
                   (VObj [("calendarId", VStr "primary");
                          ("eventId", eventId)])) ;;
     s <- interpolate eventId ;;
     ret (success (Some ("Event deleted successfully. Event ID: " ++ s))))
    (report "Error deleting event: ").

(** The projection mapped over [response.data.items]. *)
Definition event_summary (event : value) : M value :=
  id <- get "id" event ;;
  ret (VObj [("id", id);
             ("summary", Js.field "summary" event);
             ("start", Js.field "start" event);
             ("end", Js.field "end" event);
             ("location", Js.field "location" event)]).

(** [items?.map(event_summary)] *)
Definition project_items (items : value) : M value :=
  match items with
  | VUndefined | VNull => ret VUndefined
  | VArr evs => projected <- map_sync event_summary evs ;; ret (VArr projected)
  | _ => throw (TypeError (Js.NotAFunction "response.data.items.map"))
  end.

Definition handleListEvents (args : value) : M ToolResult :=
  try_catch
    (let maxResults := Js.or_else (Js.opt_field "maxResults" args) (VNum 10) in
     timeMin <-
       (let given := Js.opt_field "timeMin" args in
        if Js.truthy given then ret given
        else t <- ask now ;; ret (VStr t)) ;;
     let timeMax := Js.opt_field "timeMax" args in
     response <- await (Call calendar_events_list
                          (VObj [("calendarId", VStr "primary");
                                 ("timeMin", timeMin);
                                 ("timeMax", timeMax);
                                 ("maxResults", maxResults);
                                 ("singleEvents", VBool true);
                                 ("orderBy", VStr "startTime")])) ;;
     items <- get "items" response ;;
     events <- project_items items ;;
     ret (success (Json.stringify events)))
    (report "Error fetching calendar events: ").

(** ** The request handlers *)

(** The [CallToolRequestSchema] handler: a [switch] on the tool name. *)
Definition callTool (name : string) (arguments : value) : M ToolResult :=
  if String.eqb name "list_emails" then handleListEmails arguments
  else if String.eqb name "search_emails" then handleSearchEmails arguments
  else if String.eqb name "send_email" then handleSendEmail arguments
  else if String.eqb name "modify_email" then handleModifyEmail arguments
  else if String.eqb name "list_events" then handleListEvents arguments
  else if String.eqb name "create_event" then handleCreateEvent arguments
  else if String.eqb name "update_event" then handleUpdateEvent arguments
  else if String.eqb name "delete_event" then handleDeleteEvent arguments
  else throw (McpError MethodNotFound ("Unknown tool: " ++ name)).

(** ** The tool catalog *)

Record ToolDescriptor : Type := Tool {
  name : string;
  description : string;
  inputSchema : value
}.

(** [{ type: t, description: d }] *)
Definition property (t d : string) : value :=
  VObj [("type", VStr t); ("description", VStr d)].

(** [{ type: 'array', items: { type: 'string' }, description: d }] *)
Definition string_array (d : string) : value :=
  VObj [("type", VStr "array");
        ("items", VObj [("type", VStr "string")]);
        ("description", VStr d)].

(** The array the [ListToolsRequestSchema] handler returns under [tools]. *)
Definition tools : list ToolDescriptor :=
  [ {| name := "list_emails";
       description := "List recent emails from Gmail inbox";
       inputSchema :=
         VObj [("type", VStr "object");
               ("properties",
                VObj [("maxResults",
                       property "number" "Maximum number of emails to return (default: 10)");
                      ("query",
                       property "string" "Search query to filter emails")])] |};
    {| name := "search_emails";
       description := "Search emails with advanced query";
       inputSchema :=
         VObj [("type", VStr "object");
               ("properties",
                VObj [("query",
                       VObj [("type", VStr "string");
                             ("description",
                              VStr ("Gmail search query (e.g., "
                                      ++ String Json.dquote "from:example@gmail.com has:attachment"
                                      ++ String Json.dquote ")"));
                             ("required", VBool true)]);
                      ("maxResults",
                       property "number" "Maximum number of emails to return (default: 10)")]);
               ("required", VArr [VStr "query"])] |};
    {| name := "send_email";
       description := "Send a new email";
       inputSchema :=
         VObj [("type", VStr "object");
               ("properties",
                VObj [("to", property "string" "Recipient email address");
                      ("subject", property "string" "Email subject");
                      ("body", property "string" "Email body (can include HTML)");
                      ("cc", property "string" "CC recipients (comma-separated)");
                      ("bcc", property "string" "BCC recipients (comma-separated)")]);
               ("required", VArr [VStr "to"; VStr "subject"; VStr "body"])] |};
    {| name := "modify_email";
       description := "Modify email labels (archive, trash, mark read/unread)";
       inputSchema :=
         VObj [("type", VStr "object");
               ("properties",
                VObj [("id", property "string" "Email ID");
                      ("addLabels", string_array "Labels to add");
                      ("removeLabels", string_array "Labels to remove")]);
               ("required", VArr [VStr "id"])] |};
    {| name := "list_events";
       description := "List upcoming calendar events";
       inputSchema :=
         VObj [("type", VStr "object");
               ("properties",
                VObj [("maxResults",
                       property "number" "Maximum number of events to return (default: 10)");
                      ("timeMin",
                       property "string" "Start time in ISO format (default: now)");
                      ("timeMax",
                       property "string" "End time in ISO format")])] |};
    {| name := "create_event";
       description := "Create a new calendar event";
       inputSchema :=
         VObj [("type", VStr "object");
               ("properties",
                VObj [("summary", property "string" "Event title");
                      ("location", property "string" "Event location");
                      ("description", property "string" "Event description");
                      ("start", property "string" "Start time in ISO format");
                      ("end", property "string" "End time in ISO format");
                      ("attendees", string_array "List of attendee email addresses")]);
               ("required", VArr [VStr "summary"; VStr "start"; VStr "end"])] |};
    {| name := "update_event";
       description := "Update an existing calendar event";
       inputSchema :=
         VObj [("type", VStr "object");
               ("properties",
                VObj [("eventId", property "string" "Event ID to update");
                      ("summary", property "string" "New event title");
                      ("location", property "string" "New event location");
                      ("description", property "string" "New event description");
                      ("start", property "string" "New start time in ISO format");
                      ("end", property "string" "New end time in ISO format");
                      ("attendees", string_array "New list of attendee email addresses")]);
               ("required", VArr [VStr "eventId"])] |};
    {| name := "delete_event";
       description := "Delete a calendar event";
       inputSchema :=
         VObj [("type", VStr "object");
               ("properties",
                VObj [("eventId", property "string" "Event ID to delete")]);
               ("required", VArr [VStr "eventId"])] |} ].

(** The [ListToolsRequestSchema] handler, [async () => ({ tools: [...] })];
    the request is not looked at. *)
Definition listTools (request : value) : M (list ToolDescriptor) :=
  ret tools.

(** The schema's [required] array, when it has one. *)
Definition required (t : ToolDescriptor) : option (list value) :=
  match Js.field "required" (inputSchema t) with
  | VArr names => Some names
  | _ => None
  end.

(** ** Vocabulary of the statements *)

(** The request [handleListEmails] and [handleSearchEmails] open with. *)
Definition list_emails_request (args : value) : call :=
  Call gmail_users_messages_list
    (VObj [("userId", VStr "me");
           ("maxResults",
            if Js.truthy (Js.opt_field "maxResults" args)
            then Js.opt_field "maxResults" args else VNum 10);
           ("q",
            if Js.truthy (Js.opt_field "query" args)
            then Js.opt_field "query" args else VStr EmptyString)]).

(** The request of [handleListEvents]. *)
Definition list_events_request (h : host) (args : value) : call :=
  Call calendar_events_list
    (VObj [("calendarId", VStr "primary");
           ("timeMin",
            if Js.truthy (Js.opt_field "timeMin" args)
            then Js.opt_field "timeMin" args else VStr (now h));
           ("timeMax", Js.opt_field "timeMax" args);
           ("maxResults",
            if Js.truthy (Js.opt_field "maxResults" args)
            then Js.opt_field "maxResults" args else VNum 10);
           ("singleEvents", VBool true);
           ("orderBy", VStr "startTime")]).

(** An event resource cut down to the five fields of an event summary. *)
Definition summary_of (event : value) : value :=
  VObj [("id", Js.field "id" event);
        ("summary", Js.field "summary" event);
        ("start", Js.field "start" event);
        ("end", Js.field "end" event);
        ("location", Js.field "location" event)].

(** The fields a caller of [update_event] may change. *)
Definition patch_fields : list string :=
  ["summary"; "location"; "description"; "start"; "end"; "attendees"].

(** [silent m]: running [m] leaves the trace as it found it. *)
Definition silent {A : Type} (m : M A) : Prop :=
  forall h trace, fst (m h trace) = trace.

(** [extends m]: running [m] only adds calls at the end of the trace. *)
Definition extends {A : Type} (m : M A) : Prop :=
  forall h trace, exists more, fst (m h trace) = (trace ++ more)%list.

(** Whether a character occurs in a string, and the last character. *)
Fixpoint occurs (c : ascii) (s : string) : bool :=
  match s with
  | EmptyString => false
  | String a rest => Ascii.eqb a c || occurs c rest
  end.

Fixpoint last_char (s : string) : option ascii :=
  match s with
  | EmptyString => None
  | String a EmptyString => Some a
  | String _ rest => last_char rest
  end.

(** A host for the examples: a mailbox with one message, a calendar with
    two events, and a provider that refuses to insert events. *)
Definition sample_host : host :=
  {| provider := fun _ c =>
       match method c with
       | gmail_users_messages_list =>
           Resolved (VObj [("messages", VArr [VObj [("id", VStr "m1")]])])
       | gmail_users_messages_get =>
           Resolved (VObj [("payload",
                            VObj [("headers",
                                   VArr [VObj [("name", VStr "Subject");
                                               ("value", VStr "hello")]])])])
       | calendar_events_list =>
           Resolved (VObj [("items",
                            VArr [VObj [("id", VStr "e1"); ("summary", VStr "first")];
                                  VObj [("id", VStr "e2"); ("summary", VStr "second")]])])
       | calendar_events_insert =>
           Rejected (VObj [("message", VStr "quota exceeded")])
       | _ => Resolved (VObj [("id", VStr "x")])
       end;
     now := "2026-01-01T00:00:00.000Z";
     timeZone := "UTC";
     type_error_message := fun _ => "TypeError" |}.

(** A host whose mailbox and calendar answer with empty resources. *)
Definition empty_host : host :=
  {| provider := fun _ _ => Resolved (VObj []);
     now := "2026-01-01T00:00:00.000Z";
     timeZone := "UTC";
     type_error_message := fun _ => "TypeError" |}.

(** ** Startup *)

(** The guard at the top of the module, on the three values read from
    [process.env] (a string, or [undefined] for a variable that is not
    set): [if (!CLIENT_ID || !CLIENT_SECRET || !REFRESH_TOKEN) throw ...]. *)
Definition startup (CLIENT_ID CLIENT_SECRET REFRESH_TOKEN : value) : unit + string :=
  if negb (Js.truthy CLIENT_ID)
     || negb (Js.truthy CLIENT_SECRET)
     || negb (Js.truthy REFRESH_TOKEN)
  then inr "Required Google OAuth credentials not found in environment variables"
  else inl tt.

(** What [process.env] holds for a variable. *)
Definition env (variable : option string) : value :=
  match variable with
  | Some s => VStr s
  | None => VUndefined
  end.

(** ** Further vocabulary *)

(** The text the [catch] block of each tool puts before the message. *)
Definition error_prefix (tool : string) : string :=
  if String.eqb tool "list_emails" then "Error fetching emails: "
  else if String.eqb tool "search_emails" then "Error fetching emails: "
  else if String.eqb tool "send_email" then "Error sending email: "
  else if String.eqb tool "modify_email" then "Error modifying email: "
  else if String.eqb tool "list_events" then "Error fetching calendar events: "
  else if String.eqb tool "create_event" then "Error creating event: "
  else if String.eqb tool "update_event" then "Error updating event: "
  else if String.eqb tool "delete_event" then "Error deleting event: "
  else EmptyString.

(** The client method behind each tool that issues a single request. *)
Definition api_of (tool : string) : option api :=
  if String.eqb tool "send_email" then Some gmail_users_messages_send
  else if String.eqb tool "modify_email" then Some gmail_users_messages_modify
  else if String.eqb tool "list_events" then Some calendar_events_list
  else if String.eqb tool "create_event" then Some calendar_events_insert
  else if String.eqb tool "update_event" then Some calendar_events_patch
  else if String.eqb tool "delete_event" then Some calendar_events_delete
  else None.

(** The detail fetch for a listed message. *)
Definition get_request (msg : value) : call :=
  Call gmail_users_messages_get
    (VObj [("userId", VStr "me"); ("id", Js.field "id" msg)]).

(** A thrown value the [catch] blocks can turn into a text: its [message]
    can be read and printed. *)
Definition reportable (h : host) (e : thrown) : Prop :=
  exists s, forall prefix trace,
      report prefix e h trace = (trace, inl (failure (prefix ++ s))).

(** A provider that rejects only with values whose [message] can be read
    and printed, as the [Error] objects of the client library are. *)
Definition polite (h : host) : Prop :=
  forall trace c reason,
    provider h trace c = Rejected reason ->
    Js.nullish reason = false
    /\ exists s, Js.to_string (Js.field "message" reason) = inl s.

(** [tame m]: against a polite provider, whatever [m] throws is reportable. *)
Definition tame {A : Type} (m : M A) : Prop :=
  forall h trace e, polite h -> snd (m h trace) = inr e -> reportable h e.

(** [yields P m]: every value [m] returns satisfies [P]. *)
Definition yields {A : Type} (P : A -> Prop) (m : M A) : Prop :=
  forall h trace a, snd (m h trace) = inl a -> P a.

(** The first entry of a header array with the given name, without the
    exceptions of [find_named]. *)
Fixpoint first_named (name : string) (headers : list value) : value :=
  match headers with
  | [] => VUndefined
  | h :: rest =>
      if Js.is_string name (Js.field "name" h) then h
      else first_named name rest
  end.

(** The value of a header, as [header_value] computes it on an absent
    header list or on an array of header objects. *)
Definition header_of (name : string) (headers : value) : value :=
  match headers with
  | VArr hs => Js.or_else (Js.opt_field "value" (first_named name hs)) (VStr EmptyString)
  | _ => VStr EmptyString
  end.

(** The summary [email_detail] builds from a listed message and the data
    of its fetch. *)
Definition email_summary (msg detail : value) : value :=
  let headers := Js.opt_field "headers" (Js.field "payload" detail) in
  VObj [("id", Js.field "id" msg);
        ("subject", header_of "Subject" headers);
        ("from", header_of "From" headers);
        ("date", header_of "Date" headers)].

(** Header lists on which [header_value] raises nothing: none at all, or
    an array without [null] or [undefined] entries. *)
Definition plain_headers (headers : value) : Prop :=
  match headers with
  | VUndefined | VNull => True
  | VArr hs => Forall (fun h => Js.nullish h = false) hs
  | _ => False
  end.

(** A header line that is left out when its value is the empty string. *)
Definition line_unless_empty (label value_ : string) : list string :=
  if String.eqb value_ EmptyString then [] else [label ++ value_].

(** ** Decoding base64url

    The reading side of [Base64.encode_url], as the provider applies it to
    [raw]: the URL-safe alphabet, no padding. *)

Module Base64Url.

Definition alphabet : string :=
  "ABCDEFGHIJKLMNOPQRSTUVWXYZabcdefghijklmnopqrstuvwxyz0123456789-_".

(** The position of a character in a string. *)
Fixpoint position (c : ascii) (s : string) : option N :=
  match s with
  | EmptyString => None
  | String a rest =>
      if Ascii.eqb a c then Some 0%N
      else match position c rest with
           | Some n => Some (N.succ n)
           | None => None
           end
  end.

Definition sextet (c : ascii) : option N := position c alphabet.

Definition byte (n : N) : ascii := ascii_of_N n.

Definition byte1 (s0 s1 : N) : N := N.lor (N.shiftl s0 2) (N.shiftr s1 4).
Definition byte2 (s1 s2 : N) : N := N.lor (N.shiftl (N.land s1 15) 4) (N.shiftr s2 2).
Definition byte3 (s2 s3 : N) : N := N.lor (N.shiftl (N.land s2 3) 6) s3.

(** Four characters give three bytes; a tail of three gives two, a tail of
    two gives one, and a single character is not an encoding. *)
Fixpoint decode (s : string) : option string :=
  match s with
  | EmptyString => Some EmptyString
  | String _ EmptyString => None
  | String c0 (String c1 EmptyString) =>
      match sextet c0, sextet c1 with
      | Some s0, Some s1 => Some (String (byte (byte1 s0 s1)) EmptyString)
      | _, _ => None
      end
  | String c0 (String c1 (String c2 EmptyString)) =>
      match sextet c0, sextet c1, sextet c2 with
      | Some s0, Some s1, Some s2 =>
          Some (String (byte (byte1 s0 s1))
                  (String (byte (byte2 s1 s2)) EmptyString))
      | _, _, _ => None
      end
  | String c0 (String c1 (String c2 (String c3 rest))) =>
      match sextet c0, sextet c1, sextet c2, sextet c3, decode rest with
      | Some s0, Some s1, Some s2, Some s3, Some bytes =>
          Some (String (byte (byte1 s0 s1))
                  (String (byte (byte2 s1 s2))
                     (String (byte (byte3 s2 s3)) bytes)))
      | _, _, _, _, _ => None
      end
  end.

End Base64Url.

(** Every character of a string satisfies a test. *)
Fixpoint all_chars (test : ascii -> bool) (s : string) : bool :=
  match s with
  | EmptyString => true
  | String a rest => test a && all_chars test rest
  end.

(** Letters, digits, [-] and [_]. *)
Definition url_safe (c : ascii) : bool :=
  match Base64Url.sextet c with
  | Some _ => true
  | None => false
  end.

(** A host whose mailbox lists two messages and fails every fetch. *)
Definition failing_fetch_host : host :=
  {| provider := fun _ c =>
       match method c with
       | gmail_users_messages_list =>
           Resolved (VObj [("messages",
                            VArr [VObj [("id", VStr "m1")];
                                  VObj [("id", VStr "m2")]])])
       | gmail_users_messages_get =>
           Rejected (VObj [("message", VStr "backend error")])
       | _ => Resolved (VObj [])
       end;
     now := "2026-01-01T00:00:00.000Z";
     timeZone := "UTC";
     type_error_message := fun _ => "TypeError" |}.

(** The text of an optional string argument, empty when it is absent. *)
Definition text_of (o : option string) : string :=
  match o with
  | Some t => t
  | None => EmptyString
  end.

(** An entry of the sparse patch: present when the argument is truthy. *)
Definition patch_entry (k : string) (argument stored : value)
  : list (string * value) :=
  if Js.truthy argument then [(k, stored)] else [].

(** A host whose calendar lists an event and a [null]. *)
Definition null_item_host : host :=
  {| provider := fun _ _ =>
       Resolved (VObj [("items", VArr [VObj [("id", VStr "e1")]; VNull])]);
     now := "2026-01-01T00:00:00.000Z";
     timeZone := "UTC";
     type_error_message := fun _ => "TypeError" |}.

(** What the two [replace] calls of [handleSendEmail] make of one
    character. *)
Definition url_of (d : ascii) : ascii :=
  let d1 := if Ascii.eqb d "+"%char then "-"%char else d in
  if Ascii.eqb d1 "/"%char then "_"%char else d1.

(** The byte values, for checks by enumeration. *)
Definition byte_values : list N := map N.of_nat (seq 0 256).

(** A host whose provider rejects every request with [null]. *)
Definition null_rejecting_host : host :=
  {| provider := fun _ _ => Rejected VNull;
     now := "2026-01-01T00:00:00.000Z";
     timeZone := "UTC";
     type_error_message := fun _ => "TypeError" |}.

(** * Properties *)

Example to_string_num : Js.to_string (VNum 10) = inl "10".
Proof. reflexivity. Qed.

Example to_string_neg : Js.to_string (VNum (-42)) = inl "-42".
Proof. reflexivity. Qed.

Example to_string_zero : Js.to_string (VNum 0) = inl "0".
Proof. reflexivity. Qed.

Example to_string_arr :
  Js.to_string (VArr [VNum 1; VNull; VStr "a"; VArr [VBool true]]) = inl "1,,a,true".
Proof. reflexivity. Qed.

Example stringify_empty_array : Json.stringify (VArr []) = Some "[]".
Proof. reflexivity. Qed.

Example stringify_undefined : Json.stringify VUndefined = None.
Proof. reflexivity. Qed.

Example stringify_nested :
  Json.stringify (VArr [VObj [("id", VStr "m1"); ("n", VUndefined); ("k", VArr [VNum 1; VUndefined])]; VObj []])
  = Some ("[" ++ Json.newline ++ "  {" ++ Json.newline
          ++ "    " ++ Json.quote "id" ++ ": " ++ Json.quote "m1" ++ "," ++ Json.newline
          ++ "    " ++ Json.quote "k" ++ ": [" ++ Json.newline
          ++ "      1," ++ Json.newline
          ++ "      null" ++ Json.newline
          ++ "    ]" ++ Json.newline
          ++ "  }," ++ Json.newline
          ++ "  {}" ++ Json.newline ++ "]").
Proof. reflexivity. Qed.

Example base64_man : Base64.encode "Man" = "TWFu".
Proof. reflexivity. Qed.

Example base64_ma : Base64.encode "Ma" = "TWE=".
Proof. reflexivity. Qed.

Example base64_m : Base64.encode "M" = "TQ==".
Proof. reflexivity. Qed.

Example base64_hello : Base64.encode "Hello, World!" = "SGVsbG8sIFdvcmxkIQ==".
Proof. reflexivity. Qed.

Example base64url_subjects : Base64.encode_url "subjects?_d" = "c3ViamVjdHM_X2Q".
Proof. reflexivity. Qed.

(** ** The catalog and the dispatcher *)

(** C7: the catalog handler issues no call and returns, whatever the
    request, the host and the calls before it, the same eight descriptors,
    named and ordered as declared, with the declared required fields
    ([list_emails] and [list_events] declare none). *)
Theorem C7_catalog_is_fixed :
  (forall request h trace, listTools request h trace = (trace, inl tools))
  /\ map name tools =
       ["list_emails"; "search_emails"; "send_email"; "modify_email";
        "list_events"; "create_event"; "update_event"; "delete_event"]
  /\ map required tools =
       [None;
        Some [VStr "query"];
        Some [VStr "to"; VStr "subject"; VStr "body"];
        Some [VStr "id"];
        None;
        Some [VStr "summary"; VStr "start"; VStr "end"];
        Some [VStr "eventId"];
        Some [VStr "eventId"]].
Proof.
  split; [ | split ]; reflexivity.
Qed.

(** C1: a tool name outside the catalog makes the dispatcher throw
    [McpError(MethodNotFound, "Unknown tool: <name>")] without issuing any
    call; it returns no tool result, so no error envelope either. *)
Theorem C1_unknown_tool_is_method_not_found :
  forall (tool : string) (arguments : value) (h : host) (trace : list call),
    ~ In tool ["list_emails"; "search_emails"; "send_email"; "modify_email";
               "list_events"; "create_event"; "update_event"; "delete_event"] ->
    callTool tool arguments h trace
      = (trace, inr (McpError MethodNotFound ("Unknown tool: " ++ tool)))
    /\ (forall r, snd (callTool tool arguments h trace) <> inl r).
Proof.
  intros tool arguments h trace Hnot.
  assert (E : callTool tool arguments h trace
              = (trace, inr (McpError MethodNotFound ("Unknown tool: " ++ tool)))).
  { unfold callTool.
    repeat match goal with
           | |- context [String.eqb tool ?lit] =>
               destruct (String.eqb_spec tool lit) as [-> | _];
               [ exfalso; apply Hnot; simpl; tauto | ]
           end.
    reflexivity. }
  split; [ exact E | ].
  intros r. rewrite E. simpl. discriminate.
Qed.

Lemma C1_unknown_tool_witness :
  callTool "bogus_tool" VUndefined sample_host []
    = ([], inr (McpError MethodNotFound "Unknown tool: bogus_tool")).
Proof.
  apply (C1_unknown_tool_is_method_not_found "bogus_tool" VUndefined sample_host []).
  simpl. intros H.
  repeat match goal with
         | H : _ \/ _ |- _ => destruct H as [H | H]; [ discriminate H | ]
         end.
  exact H.
Defined.

(** ** Computations that issue no call *)

Lemma silent_ret {A : Type} (a : A) : silent (ret a).
Proof. intros h trace. reflexivity. Qed.

Lemma silent_throw {A : Type} (e : thrown) : silent (@throw A e).
Proof. intros h trace. reflexivity. Qed.

Lemma silent_ask {A : Type} (f : host -> A) : silent (ask f).
Proof. intros h trace. reflexivity. Qed.

Lemma silent_lift {A : Type} (r : A + Js.type_error) : silent (lift r).
Proof. destruct r; intros h trace; reflexivity. Qed.

Lemma silent_bind {A B : Type} (m : M A) (k : A -> M B) :
  silent m -> (forall a, silent (k a)) -> silent (bind m k).
Proof.
  intros Hm Hk h trace. unfold bind.
  specialize (Hm h trace).
  destruct (m h trace) as [trace' [a | e]]; simpl in *; subst trace'.
  - apply Hk.
  - reflexivity.
Qed.

Lemma silent_try_catch {A : Type} (body : M A) (handler : thrown -> M A) :
  silent body -> (forall e, silent (handler e)) -> silent (try_catch body handler).
Proof.
  intros Hb Hh h trace. unfold try_catch.
  specialize (Hb h trace).
  destruct (body h trace) as [trace' [a | e]]; simpl in *; subst trace'.
  - reflexivity.
  - apply Hh.
Qed.

Lemma silent_get (k : string) (v : value) : silent (get k v).
Proof.
  unfold get. destruct (Js.nullish v); [ apply silent_throw | apply silent_ret ].
Qed.

Lemma silent_destructure (v : value) : silent (destructure v).
Proof.
  unfold destructure. destruct (Js.nullish v); [ apply silent_throw | apply silent_ret ].
Qed.

Lemma silent_interpolate (v : value) : silent (interpolate v).
Proof. apply silent_lift. Qed.

Lemma silent_error_message (error : thrown) : silent (error_message error).
Proof.
  destruct error; simpl.
  - apply silent_get.
  - apply silent_ask.
  - apply silent_ret.
Qed.

Create HintDb silent.

#[export] Hint Resolve silent_ret silent_throw silent_ask silent_lift
  silent_get silent_destructure silent_interpolate silent_error_message
  : silent.

(** Through a chain of binds, each link closed from the hint base. *)
Ltac silence :=
  repeat first [ apply silent_bind; [ | intro ] | solve [ auto with silent ] ].

Lemma silent_report (prefix : string) (error : thrown) : silent (report prefix error).
Proof. unfold report. silence. Qed.

Lemma silent_zoned (t : value) : silent (zoned t).
Proof. unfold zoned. silence. Qed.

Lemma silent_attendee_records (attendees : value) : silent (attendee_records attendees).
Proof.
  destruct attendees; simpl; first [ apply silent_ret | apply silent_throw ].
Qed.

#[export] Hint Resolve silent_report silent_zoned silent_attendee_records
  : silent.

(** What a silent computation returns decides what follows it. *)
Lemma silent_run {A : Type} (m : M A) (h : host) (trace : list call) :
  silent m -> m h trace = (trace, snd (m h trace)).
Proof.
  intros Hm. specialize (Hm h trace).
  destruct (m h trace) as [trace' r]; simpl in *. now subst.
Qed.

Lemma app_one_neq {A : Type} (l : list A) (x : A) : l <> (l ++ [x])%list.
Proof.
  intros E. apply (f_equal (@length A)) in E.
  rewrite length_app in E. simpl in E. lia.
Qed.

(** ** Creating an event *)

(** Before its request, [handleCreateEvent] only reads its arguments. *)
Lemma create_event_runs (args : value) (h : host) (trace : list call) :
  (exists body,
      Js.nullish args = false
      /\ handleCreateEvent args h trace
         = try_catch
             (response <- await (Call calendar_events_insert
                                   (VObj [("calendarId", VStr "primary");
                                          ("requestBody", body)])) ;;
              id <- get "id" response ;;
              s <- interpolate id ;;
              ret (success (Some ("Event created successfully. Event ID: " ++ s))))
             (report "Error creating event: ") h trace)
  \/ fst (handleCreateEvent args h trace) = trace.
Proof.
  unfold handleCreateEvent.
  destruct (Js.nullish args) eqn:Hargs.
  - right. unfold try_catch, bind, destructure. rewrite Hargs. simpl.
    first [ reflexivity | apply silent_report ].
  - destruct (Js.default_to (VArr []) (Js.field "attendees" args)) eqn:Hatt.
    1-5, 7: right; unfold try_catch, bind, destructure; rewrite Hargs;
      simpl; first [ reflexivity | apply silent_report ].
    left. eexists. split; [ reflexivity | ].
    unfold try_catch, bind, destructure. rewrite Hargs. simpl.
    reflexivity.
Qed.

(** C2: when an invocation of [create_event] issues its request and the
    provider rejects it with an error whose message is [m], the handler
    returns the error result with the single text entry
    ["Error creating event: " ++ m] and throws nothing; the request was the
    only one, an insert into the primary calendar. *)
Theorem C2_create_event_reports_provider_failure :
  forall (args : value) (h : host) (trace trace' : list call)
         (outcome : ToolResult + thrown) (c : call) (e : value) (m : string),
    handleCreateEvent args h trace = (trace', outcome) ->
    trace' = (trace ++ [c])%list ->
    provider h trace c = Rejected e ->
    Js.nullish e = false ->
    Js.field "message" e = VStr m ->
    outcome = inl {| content := [ {| type := "text";
                                     text := Some ("Error creating event: " ++ m) |} ];
                     isError := Some true |}
    /\ method c = calendar_events_insert
    /\ Js.field "calendarId" (params c) = VStr "primary".
Proof.
  intros args h trace trace' outcome c e m Hrun Htrace Hprov He Hm.
  destruct (create_event_runs args h trace) as [[body [_ Heq]] | Hsilent].
  - rewrite Heq in Hrun. clear Heq.
    unfold try_catch, bind, await in Hrun.
    destruct (provider h trace (Call calendar_events_insert
               (VObj [("calendarId", VStr "primary"); ("requestBody", body)])))
      as [data | reason] eqn:Hp.
    + exfalso.
      remember (Call calendar_events_insert
                  (VObj [("calendarId", VStr "primary"); ("requestBody", body)])) as c0.
      assert (Ht : trace' = (trace ++ [c0])%list).
      { revert Hrun. unfold get, interpolate.
        destruct (Js.nullish data); simpl.
        - unfold report, bind, error_message, ask, interpolate, lift; simpl.
          intros Hrun. inversion Hrun. reflexivity.
        - destruct (Js.to_string (Js.field "id" data)); simpl.
          + intros Hrun. inversion Hrun. reflexivity.
          + unfold report, bind, error_message, ask, interpolate, lift; simpl.
            intros Hrun. inversion Hrun. reflexivity. }
      rewrite Ht in Htrace. apply app_inv_head in Htrace.
      inversion Htrace; subst c. rewrite Hp in Hprov. discriminate.
    + assert (Hc : c = Call calendar_events_insert
                        (VObj [("calendarId", VStr "primary"); ("requestBody", body)])
                   /\ reason = e).
      { assert (Ht : fst (report "Error creating event: " (ProviderError reason) h
                            (trace ++ [Call calendar_events_insert
                               (VObj [("calendarId", VStr "primary");
                                      ("requestBody", body)])])%list) = trace')
          by (rewrite Hrun; reflexivity).
        rewrite silent_report in Ht. rewrite <- Ht in Htrace.
        apply app_inv_head in Htrace. inversion Htrace; subst c.
        rewrite Hp in Hprov. inversion Hprov. auto. }
      destruct Hc as [-> ->].
      split; [ | split; reflexivity ].
      revert Hrun.
      unfold report, bind, error_message, get. rewrite He, Hm. simpl.
      intros Hrun. inversion Hrun. reflexivity.
  - exfalso. rewrite Hrun in Hsilent. simpl in Hsilent.
    rewrite Htrace in Hsilent. symmetry in Hsilent.
    exact (app_one_neq _ _ Hsilent).
Qed.

Lemma C2_quota_exceeded_witness :
  snd (handleCreateEvent
         (VObj [("summary", VStr "standup"); ("start", VStr "2026-01-02T09:00:00Z");
                ("end", VStr "2026-01-02T09:15:00Z")])
         sample_host [])
  = inl {| content := [ {| type := "text";
                           text := Some "Error creating event: quota exceeded" |} ];
           isError := Some true |}.
Proof.
  exact (proj1 (C2_create_event_reports_provider_failure
                  (VObj [("summary", VStr "standup");
                         ("start", VStr "2026-01-02T09:00:00Z");
                         ("end", VStr "2026-01-02T09:15:00Z")])
                  sample_host [] _ _ _
                  (VObj [("message", VStr "quota exceeded")]) "quota exceeded"
                  eq_refl eq_refl eq_refl eq_refl eq_refl)).
Defined.

(** ** Stepping through a handler *)

Lemma try_bind_ok {A B : Type} (m : M A) (k : A -> M B) (hd : thrown -> M B)
      (h : host) (trace trace' : list call) (a : A) :
  m h trace = (trace', inl a) ->
  try_catch (bind m k) hd h trace = try_catch (k a) hd h trace'.
Proof. intros E. unfold try_catch, bind. rewrite E. reflexivity. Qed.

Lemma try_bind_err {A B : Type} (m : M A) (k : A -> M B) (hd : thrown -> M B)
      (h : host) (trace trace' : list call) (e : thrown) :
  m h trace = (trace', inr e) ->
  try_catch (bind m k) hd h trace = hd e h trace'.
Proof. intros E. unfold try_catch, bind. rewrite E. reflexivity. Qed.

Lemma try_await_ok {B : Type} (c : call) (k : value -> M B) (hd : thrown -> M B)
      (h : host) (trace : list call) (data : value) :
  provider h trace c = Resolved data ->
  try_catch (bind (await c) k) hd h trace
    = try_catch (k data) hd h (trace ++ [c])%list.
Proof. intros E. apply try_bind_ok. unfold await. rewrite E. reflexivity. Qed.

Lemma try_await_err {B : Type} (c : call) (k : value -> M B) (hd : thrown -> M B)
      (h : host) (trace : list call) (reason : value) :
  provider h trace c = Rejected reason ->
  try_catch (bind (await c) k) hd h trace
    = hd (ProviderError reason) h (trace ++ [c])%list.
Proof. intros E. apply try_bind_err. unfold await. rewrite E. reflexivity. Qed.

(** A handler that, once its request is out, only computes: the request is
    the one call it adds, however the provider answers. *)
Lemma try_request_trace {B : Type} (c : call) (k : value -> M B)
      (hd : thrown -> M B) (h : host) (trace : list call) :
  (forall data, silent (k data)) ->
  (forall e, silent (hd e)) ->
  fst (try_catch (bind (await c) k) hd h trace) = (trace ++ [c])%list.
Proof.
  intros Hk Hhd.
  destruct (provider h trace c) as [data | reason] eqn:E.
  - rewrite (try_await_ok _ _ _ _ _ _ E).
    apply silent_try_catch; auto.
  - rewrite (try_await_err _ _ _ _ _ _ E). apply Hhd.
Qed.

(** The tail shared by the handlers that answer with the id of the
    resource the provider returned. *)
Lemma silent_id_reply (prefix : string) (response : value) :
  silent (id <- get "id" response ;;
          s <- interpolate id ;;
          ret (success (Some (prefix ++ s)))).
Proof. silence. Qed.

#[export] Hint Resolve silent_id_reply : silent.

(** ** Sending mail *)

Lemma append_cancel_l (p a b : string) : p ++ a = p ++ b -> a = b.
Proof.
  induction p as [ | c p IH]; simpl; intros E.
  - exact E.
  - inversion E. auto.
Qed.

Lemma crlf_is_not_empty (b : string) : b <> CRLF ++ b.
Proof.
  intros E. apply (f_equal String.length) in E.
  unfold CRLF in E. simpl in E. lia.
Qed.

(** With string arguments, a body that is not empty and no [cc] or [bcc],
    the message is the four header lines and the body, CRLF between them:
    [filter(Boolean)] takes out the empty entries of the array, the one
    that stands for the blank line among them. *)
Lemma send_email_message_shape :
  forall (to subject body : string) (h : host) (trace : list call),
    body <> EmptyString ->
    message (VStr to) (VStr subject) (VStr body) VUndefined VUndefined h trace
      = (trace,
         inl ("Content-Type: text/html; charset=utf-8" ++ CRLF
                ++ "MIME-Version: 1.0" ++ CRLF
                ++ ("To: " ++ to) ++ CRLF
                ++ ("Subject: " ++ subject) ++ CRLF
                ++ body)).
Proof.
  intros to subject body h trace Hbody.
  destruct body as [ | b0 body ]; [ contradiction | ].
  reflexivity.
Qed.

(** The message never has the blank line between headers and body. *)
Lemma send_email_message_lacks_blank_line :
  forall (to subject body : string),
    "Content-Type: text/html; charset=utf-8" ++ CRLF
      ++ "MIME-Version: 1.0" ++ CRLF
      ++ ("To: " ++ to) ++ CRLF
      ++ ("Subject: " ++ subject) ++ CRLF
      ++ body
    <> "Content-Type: text/html; charset=utf-8" ++ CRLF
         ++ "MIME-Version: 1.0" ++ CRLF
         ++ ("To: " ++ to) ++ CRLF
         ++ ("Subject: " ++ subject) ++ CRLF
         ++ CRLF ++ body.
Proof.
  intros to subject body E.
  repeat (apply append_cancel_l in E).
  exact (crlf_is_not_empty _ E).
Qed.

Lemma replace_all_removes (c d : ascii) (s : string) :
  d <> c -> occurs c (Base64.replace_all c d s) = false.
Proof.
  intros Hdc. induction s as [ | a s IH]; simpl; [ reflexivity | ].
  rewrite IH, orb_false_r.
  destruct (Ascii.eqb_spec a c) as [ _ | Hac ];
    apply Ascii.eqb_neq; assumption.
Qed.

Lemma replace_all_keeps_absent (x c d : ascii) (s : string) :
  d <> x -> occurs x s = false -> occurs x (Base64.replace_all c d s) = false.
Proof.
  intros Hdx. induction s as [ | a s IH]; simpl; [ reflexivity | ].
  intros H. apply orb_false_iff in H. destruct H as [Ha Hs].
  rewrite (IH Hs), orb_false_r.
  destruct (Ascii.eqb a c); [ apply Ascii.eqb_neq; assumption | exact Ha ].
Qed.

Lemma strip_trailing_keeps_absent (x c : ascii) (s : string) :
  occurs x s = false -> occurs x (Base64.strip_trailing c s) = false.
Proof.
  induction s as [ | a s IH]; simpl; [ reflexivity | ].
  intros H. apply orb_false_iff in H. destruct H as [Ha Hs].
  specialize (IH Hs).
  destruct (Base64.strip_trailing c s) as [ | k kept ].
  - destruct (Ascii.eqb a c); simpl; [ reflexivity | ].
    rewrite Ha. reflexivity.
  - change (occurs x (String a (String k kept)))
      with (Ascii.eqb a x || occurs x (String k kept)).
    rewrite Ha, IH. reflexivity.
Qed.

Lemma strip_trailing_ends_clean (c : ascii) (s : string) :
  last_char (Base64.strip_trailing c s) <> Some c.
Proof.
  induction s as [ | a s IH]; simpl; [ discriminate | ].
  destruct (Base64.strip_trailing c s) as [ | k kept ].
  - destruct (Ascii.eqb_spec a c) as [ _ | Hac ]; simpl; [ discriminate | ].
    intros E. inversion E. contradiction.
  - exact IH.
Qed.

(** Whatever the message, its encoding has no [+], no [/] and does not end
    in [=]. *)
Lemma encode_url_is_url_safe (msg : string) :
  occurs "+"%char (Base64.encode_url msg) = false
  /\ occurs "/"%char (Base64.encode_url msg) = false
  /\ last_char (Base64.encode_url msg) <> Some "="%char.
Proof.
  unfold Base64.encode_url. repeat split.
  - apply strip_trailing_keeps_absent.
    apply replace_all_keeps_absent; [ discriminate | ].
    apply replace_all_removes. discriminate.
  - apply strip_trailing_keeps_absent.
    apply replace_all_removes. discriminate.
  - apply strip_trailing_ends_clean.
Qed.

(** Once the message is built, [handleSendEmail] submits its encoding as
    [raw], and that is its one request. *)
Lemma send_email_request :
  forall (args : value) (msg : string) (h : host) (trace : list call),
    Js.nullish args = false ->
    message (Js.field "to" args) (Js.field "subject" args) (Js.field "body" args)
            (Js.field "cc" args) (Js.field "bcc" args) h trace = (trace, inl msg) ->
    fst (handleSendEmail args h trace)
      = (trace ++ [Call gmail_users_messages_send
                     (VObj [("userId", VStr "me");
                            ("requestBody",
                             VObj [("raw", VStr (Base64.encode_url msg))])])])%list.
Proof.
  intros args msg h trace Hargs Hmsg.
  unfold handleSendEmail. cbv zeta.
  rewrite (try_bind_ok _ _ _ h trace trace tt)
    by (unfold destructure; rewrite Hargs; reflexivity).
  rewrite (try_bind_ok _ _ _ h trace trace msg Hmsg).
  apply try_request_trace.
  - intros data. auto with silent.
  - intros e. auto with silent.
Qed.

(** C3, at [{to: "a@x.com", subject: "Hi", body: "<b>hi</b>"}]: the message
    submitted is the four header lines and then, straight after the
    [Subject] line, the body.  The blank line that the specification (and
    the empty entry before [body] in the source array) puts between them is
    not there, so neither the message nor its encoding is the stated one. *)
Theorem C3_send_email_drops_the_blank_line :
  forall (h : host) (trace : list call),
    let args := VObj [("to", VStr "a@x.com"); ("subject", VStr "Hi");
                      ("body", VStr "<b>hi</b>")] in
    let headers := "Content-Type: text/html; charset=utf-8" ++ CRLF
                     ++ "MIME-Version: 1.0" ++ CRLF
                     ++ "To: a@x.com" ++ CRLF
                     ++ "Subject: Hi" ++ CRLF in
    let sent := headers ++ "<b>hi</b>" in
    let claimed := headers ++ CRLF ++ "<b>hi</b>" in
    fst (handleSendEmail args h trace)
      = (trace ++ [Call gmail_users_messages_send
                     (VObj [("userId", VStr "me");
                            ("requestBody",
                             VObj [("raw", VStr (Base64.encode_url sent))])])])%list
    /\ sent <> claimed
    /\ Base64.encode_url sent <> Base64.encode_url claimed.
Proof.
  intros h trace args headers sent claimed. split; [ | split ].
  - apply (send_email_request args sent h trace); reflexivity.
  - subst sent claimed headers. vm_compute. discriminate.
  - subst sent claimed headers. vm_compute. discriminate.
Qed.

(** ** Empty listings *)

(** C4, as stated, fails for [maxResults: 0]: zero is falsy, the request
    goes out with the default 10, and a mailbox that holds a message is
    listed with one detail fetch and a text that is not the empty array. *)
Lemma C4_max_results_zero_counterexample :
  handleListEmails (VObj [("maxResults", VNum 0)]) sample_host []
    = ([Call gmail_users_messages_list
          (VObj [("userId", VStr "me"); ("maxResults", VNum 10);
                 ("q", VStr EmptyString)]);
        Call gmail_users_messages_get
          (VObj [("userId", VStr "me"); ("id", VStr "m1")])],
       inl (success
              (Json.stringify
                 (VArr [VObj [("id", VStr "m1"); ("subject", VStr "hello");
                              ("from", VStr EmptyString);
                              ("date", VStr EmptyString)]]))))
  /\ Json.stringify
       (VArr [VObj [("id", VStr "m1"); ("subject", VStr "hello");
                    ("from", VStr EmptyString); ("date", VStr EmptyString)]])
     <> Some "[]".
Proof.
  split.
  - vm_compute. reflexivity.
  - vm_compute. discriminate.
Qed.

(** With nothing listed, there is nothing to fetch. *)
Lemma empty_listing :
  forall (args : value) (h : host) (trace : list call) (data : value),
    provider h trace (list_emails_request args) = Resolved data ->
    Js.nullish data = false ->
    (Js.truthy (Js.field "messages" data) = false
     \/ Js.field "messages" data = VArr []) ->
    handleListEmails args h trace
      = ((trace ++ [list_emails_request args])%list,
         inl (success (Some "[]"))).
Proof.
  intros args h trace data Hprov Hdata Hmsgs.
  unfold handleListEmails. cbv zeta.
  etransitivity.
  { apply (try_await_ok (list_emails_request args) _ _ h trace data Hprov). }
  cbv beta.
  rewrite (try_bind_ok _ _ _ h _ _ (Js.field "messages" data))
    by (unfold get; rewrite Hdata; reflexivity).
  unfold Js.or_else.
  destruct Hmsgs as [Hfalsy | Hempty].
  - rewrite Hfalsy. reflexivity.
  - rewrite Hempty. reflexivity.
Qed.

(** The request of [handleListEvents] always goes out. *)
Lemma list_events_runs :
  forall (args : value) (h : host) (trace : list call),
    handleListEvents args h trace
      = try_catch
          (response <- await (list_events_request h args) ;;
           items <- get "items" response ;;
           events <- project_items items ;;
           ret (success (Json.stringify events)))
          (report "Error fetching calendar events: ") h trace.
Proof.
  intros args h trace.
  unfold handleListEvents, list_events_request, Js.or_else. cbv zeta.
  destruct (Js.truthy (Js.opt_field "timeMin" args)).
  - rewrite (try_bind_ok _ _ _ h trace trace (Js.opt_field "timeMin" args))
      by reflexivity.
    reflexivity.
  - rewrite (try_bind_ok _ _ _ h trace trace (VStr (now h))) by reflexivity.
    reflexivity.
Qed.

(** C10: when the events response has no [items], the optional-chained
    [map] yields [undefined]; [JSON.stringify] of it is [undefined], and
    that, not ["[]"], is the text of the result, which carries no error
    mark.  [handleListEmails] in the same situation puts [[]] in place of
    the missing [messages] and answers ["[]"]. *)
Theorem C10_missing_items_is_not_defaulted :
  (forall (args : value) (h : host) (trace : list call) (data : value),
      provider h trace (list_events_request h args) = Resolved data ->
      Js.nullish data = false ->
      Js.field "items" data = VUndefined ->
      handleListEvents args h trace
        = ((trace ++ [list_events_request h args])%list,
           inl {| content := [ {| type := "text";
                                  text := Json.stringify VUndefined |} ];
                  isError := None |})
      /\ Json.stringify VUndefined <> Some "[]")
  /\ (forall (args : value) (h : host) (trace : list call) (data : value),
         provider h trace (list_emails_request args) = Resolved data ->
         Js.nullish data = false ->
         Js.field "messages" data = VUndefined ->
         handleListEmails args h trace
           = ((trace ++ [list_emails_request args])%list,
              inl {| content := [ {| type := "text"; text := Some "[]" |} ];
                     isError := None |})).
Proof.
  split.
  - intros args h trace data Hprov Hdata Hitems.
    split; [ | discriminate ].
    rewrite list_events_runs.
    rewrite (try_await_ok _ _ _ h trace data Hprov).
    rewrite (try_bind_ok _ _ _ h _ _ VUndefined)
      by (unfold get; rewrite Hdata, Hitems; reflexivity).
    reflexivity.
  - intros args h trace data Hprov Hdata Hmsgs.
    apply (empty_listing args h trace data Hprov Hdata).
    left. rewrite Hmsgs. reflexivity.
Qed.

Lemma C10_missing_items_witness :
  handleListEvents VUndefined empty_host []
    = ([list_events_request empty_host VUndefined],
       inl {| content := [ {| type := "text"; text := None |} ];
              isError := None |})
  /\ handleListEmails VUndefined empty_host []
      = ([list_emails_request VUndefined],
         inl {| content := [ {| type := "text"; text := Some "[]" |} ];
                isError := None |}).
Proof.
  split.
  - apply (proj1 C10_missing_items_is_not_defaulted
             VUndefined empty_host [] (VObj [])); reflexivity.
  - apply (proj2 C10_missing_items_is_not_defaulted
             VUndefined empty_host [] (VObj [])); reflexivity.
Defined.

(** ** Listing events *)

Lemma silent_event_summary (event : value) : silent (event_summary event).
Proof. unfold event_summary. silence. Qed.

Lemma silent_map_sync {A B : Type} (f : A -> M B) (items : list A) :
  (forall x, silent (f x)) -> silent (map_sync f items).
Proof.
  intros Hf. induction items as [ | x rest IH]; simpl.
  - apply silent_ret.
  - apply silent_bind; [ apply Hf | intros y ].
    apply silent_bind; [ exact IH | intros ys; auto with silent ].
Qed.

Lemma silent_project_items (items : value) : silent (project_items items).
Proof.
  destruct items; simpl; try apply silent_ret; try apply silent_throw.
  apply silent_bind; [ | intros; apply silent_ret ].
  apply silent_map_sync. apply silent_event_summary.
Qed.

(** On event resources the projection is [summary_of], item by item and in
    the order of the items. *)
Lemma map_sync_event_summary :
  forall (items : list value) (h : host) (trace : list call),
    Forall (fun event => Js.nullish event = false) items ->
    map_sync event_summary items h trace = (trace, inl (map summary_of items)).
Proof.
  intros items h trace Hitems.
  induction Hitems as [ | event rest Hevent _ IH]; simpl.
  - reflexivity.
  - unfold bind at 1. unfold event_summary at 1. unfold bind at 1, get.
    rewrite Hevent. simpl.
    unfold bind at 1. rewrite IH. reflexivity.
Qed.

(** C8: every invocation of [list_events] issues one call, a list of the
    primary calendar with [singleEvents] set and [orderBy: 'startTime'],
    [maxResults] 10 and [timeMin] the current time unless the arguments
    give truthy ones.  When the provider answers with event resources, the
    text is the JSON of their summaries [{id, summary, start, end,
    location}], field values untouched, in the provider's order. *)
Theorem C8_list_events_is_a_pass_through :
  forall (args : value) (h : host) (trace : list call),
    fst (handleListEvents args h trace)
      = (trace ++ [list_events_request h args])%list
    /\ (method (list_events_request h args) = calendar_events_list
        /\ Js.field "calendarId" (params (list_events_request h args)) = VStr "primary"
        /\ Js.field "singleEvents" (params (list_events_request h args)) = VBool true
        /\ Js.field "orderBy" (params (list_events_request h args)) = VStr "startTime"
        /\ Js.field "maxResults" (params (list_events_request h args))
           = (if Js.truthy (Js.opt_field "maxResults" args)
              then Js.opt_field "maxResults" args else VNum 10)
        /\ Js.field "timeMin" (params (list_events_request h args))
           = (if Js.truthy (Js.opt_field "timeMin" args)
              then Js.opt_field "timeMin" args else VStr (now h)))
    /\ (forall (data : value) (items : list value),
           provider h trace (list_events_request h args) = Resolved data ->
           Js.nullish data = false ->
           Js.field "items" data = VArr items ->
           Forall (fun event => Js.nullish event = false) items ->
           snd (handleListEvents args h trace)
             = inl {| content :=
                        [ {| type := "text";
                             text := Json.stringify (VArr (map summary_of items)) |} ];
                      isError := None |}).
Proof.
  intros args h trace. split; [ | split ].
  - rewrite list_events_runs. apply try_request_trace.
    + intros data.
      apply silent_bind; [ apply silent_get | intros items ].
      apply silent_bind; [ apply silent_project_items | intros events ].
      apply silent_ret.
    + intros e. apply silent_report.
  - repeat split; reflexivity.
  - intros data items Hprov Hdata Hitems Hevents.
    rewrite list_events_runs.
    rewrite (try_await_ok _ _ _ h trace data Hprov).
    rewrite (try_bind_ok _ _ _ h _ _ (VArr items))
      by (unfold get; rewrite Hdata, Hitems; reflexivity).
    rewrite (try_bind_ok _ _ _ h
               (trace ++ [list_events_request h args])%list
               (trace ++ [list_events_request h args])%list
               (VArr (map summary_of items))).
    + reflexivity.
    + unfold project_items, bind.
      rewrite map_sync_event_summary by exact Hevents. reflexivity.
Qed.

Lemma C8_list_events_witness :
  snd (handleListEvents VUndefined sample_host [])
    = inl {| content :=
               [ {| type := "text";
                    text := Json.stringify
                              (VArr [VObj [("id", VStr "e1"); ("summary", VStr "first");
                                           ("start", VUndefined); ("end", VUndefined);
                                           ("location", VUndefined)];
                                     VObj [("id", VStr "e2"); ("summary", VStr "second");
                                           ("start", VUndefined); ("end", VUndefined);
                                           ("location", VUndefined)]]) |} ];
             isError := None |}.
Proof.
  apply (proj2 (proj2 (C8_list_events_is_a_pass_through VUndefined sample_host []))
           (VObj [("items",
                   VArr [VObj [("id", VStr "e1"); ("summary", VStr "first")];
                         VObj [("id", VStr "e2"); ("summary", VStr "second")]])])
           [VObj [("id", VStr "e1"); ("summary", VStr "first")];
            VObj [("id", VStr "e2"); ("summary", VStr "second")]]).
  - reflexivity.
  - reflexivity.
  - reflexivity.
  - repeat constructor.
Defined.

(** ** Modifying labels *)

(** C9: with arguments that carry no [addLabels] and no [removeLabels],
    [handleModifyEmail] issues one modify call whose [addLabelIds] and
    [removeLabelIds] are both the empty array; when the provider answers
    with a message resource, the result is the success text and [isError]
    is not set. *)
Theorem C9_modify_email_without_labels :
  forall (args : value) (h : host) (trace : list call),
    Js.nullish args = false ->
    Js.field "addLabels" args = VUndefined ->
    Js.field "removeLabels" args = VUndefined ->
    let request :=
      Call gmail_users_messages_modify
        (VObj [("userId", VStr "me");
               ("id", Js.field "id" args);
               ("requestBody",
                VObj [("addLabelIds", VArr []); ("removeLabelIds", VArr [])])]) in
    fst (handleModifyEmail args h trace) = (trace ++ [request])%list
    /\ (forall (data : value) (s : string),
           provider h trace request = Resolved data ->
           Js.nullish data = false ->
           Js.to_string (Js.field "id" data) = inl s ->
           snd (handleModifyEmail args h trace)
             = inl {| content :=
                        [ {| type := "text";
                             text := Some ("Email modified successfully. Updated labels for message ID: " ++ s) |} ];
                      isError := None |}).
Proof.
  intros args h trace Hargs Hadd Hremove request.
  assert (Hrun : handleModifyEmail args h trace
                 = try_catch
                     (response <- await request ;;
                      rid <- get "id" response ;;
                      s <- interpolate rid ;;
                      ret (success (Some ("Email modified successfully. Updated labels for message ID: " ++ s))))
                     (report "Error modifying email: ") h trace).
  { unfold handleModifyEmail. cbv zeta.
    rewrite (try_bind_ok _ _ _ h trace trace tt)
      by (unfold destructure; rewrite Hargs; reflexivity).
    rewrite Hadd, Hremove. reflexivity. }
  rewrite Hrun. split.
  - apply try_request_trace.
    + intros data. auto with silent.
    + intros e. auto with silent.
  - intros data s Hprov Hdata Hid.
    rewrite (try_await_ok _ _ _ h trace data Hprov).
    rewrite (try_bind_ok _ _ _ h _ _ (Js.field "id" data))
      by (unfold get; rewrite Hdata; reflexivity).
    rewrite (try_bind_ok _ _ _ h _ _ s)
      by (unfold interpolate; rewrite Hid; reflexivity).
    reflexivity.
Qed.

Lemma C9_modify_email_witness :
  handleModifyEmail (VObj [("id", VStr "m1")]) sample_host []
    = ([Call gmail_users_messages_modify
          (VObj [("userId", VStr "me");
                 ("id", VStr "m1");
                 ("requestBody",
                  VObj [("addLabelIds", VArr []); ("removeLabelIds", VArr [])])])],
       inl {| content :=
                [ {| type := "text";
                     text := Some "Email modified successfully. Updated labels for message ID: x" |} ];
              isError := None |}).
Proof.
  pose proof (C9_modify_email_without_labels
                (VObj [("id", VStr "m1")]) sample_host []
                eq_refl eq_refl eq_refl) as [Htrace Hresult].
  specialize (Hresult (VObj [("id", VStr "x")]) "x" eq_refl eq_refl eq_refl).
  rewrite (surjective_pairing (handleModifyEmail (VObj [("id", VStr "m1")]) sample_host [])).
  rewrite Htrace, Hresult. reflexivity.
Defined.

(** ** Updating an event *)

Lemma silent_update_patch (args : value) : silent (update_patch args).
Proof.
  unfold update_patch, set_zoned_if, set_attendees_if. cbv zeta.
  apply silent_bind.
  { destruct (Js.truthy (Js.field "start" args)); [ | apply silent_ret ].
    apply silent_bind; [ apply silent_zoned | intros; apply silent_ret ]. }
  intros event1. apply silent_bind.
  { destruct (Js.truthy (Js.field "end" args)); [ | apply silent_ret ].
    apply silent_bind; [ apply silent_zoned | intros; apply silent_ret ]. }
  intros event2.
  destruct (Js.truthy (Js.field "attendees" args)); [ | apply silent_ret ].
  apply silent_bind; [ apply silent_attendee_records | intros; apply silent_ret ].
Qed.

(** The keys of the patch, in order: the updatable fields whose argument is
    truthy. *)
Lemma update_patch_keys :
  forall (args : value) (h : host) (trace trace' : list call)
         (body : list (string * value)),
    update_patch args h trace = (trace', inl body) ->
    map fst body = filter (fun k => Js.truthy (Js.field k args)) patch_fields.
Proof.
  intros args h trace trace' body.
  unfold update_patch, set_if, set_zoned_if, set_attendees_if, patch_fields.
  cbv zeta. unfold filter.
  destruct (Js.truthy (Js.field "summary" args));
    destruct (Js.truthy (Js.field "location" args));
    destruct (Js.truthy (Js.field "description" args));
    destruct (Js.truthy (Js.field "start" args));
    destruct (Js.truthy (Js.field "end" args));
    destruct (Js.truthy (Js.field "attendees" args));
    try destruct (Js.field "attendees" args);
    unfold bind, zoned, ask, ret, throw, attendee_records; simpl;
    intros E; inversion E; reflexivity.
Qed.

(** ** Listing and searching mail *)

Lemma extends_silent {A : Type} (m : M A) : silent m -> extends m.
Proof.
  intros Hm h trace. exists []. rewrite app_nil_r. apply Hm.
Qed.

Lemma extends_await (c : call) : extends (await c).
Proof. intros h trace. exists [c]. reflexivity. Qed.

Lemma extends_bind {A B : Type} (m : M A) (k : A -> M B) :
  extends m -> (forall a, extends (k a)) -> extends (bind m k).
Proof.
  intros Hm Hk h trace. unfold bind.
  destruct (Hm h trace) as [more1 H1].
  destruct (m h trace) as [trace1 [a | e]]; simpl in H1; subst trace1.
  - destruct (Hk a h (trace ++ more1)%list) as [more2 H2].
    exists (more1 ++ more2)%list. rewrite H2. symmetry. apply app_assoc.
  - exists more1. reflexivity.
Qed.

Lemma extends_try_catch {A : Type} (body : M A) (handler : thrown -> M A) :
  extends body -> (forall e, extends (handler e)) -> extends (try_catch body handler).
Proof.
  intros Hb Hh h trace. unfold try_catch.
  destruct (Hb h trace) as [more1 H1].
  destruct (body h trace) as [trace1 [a | e]]; simpl in H1; subst trace1.
  - exists more1. reflexivity.
  - destruct (Hh e h (trace ++ more1)%list) as [more2 H2].
    exists (more1 ++ more2)%list. rewrite H2. symmetry. apply app_assoc.
Qed.

Lemma extends_promise_all {A : Type} (ps : list (M A)) :
  Forall extends ps -> extends (promise_all ps).
Proof.
  induction 1 as [ | p rest Hp _ IH]; intros h trace; simpl.
  - exists []. symmetry. apply app_nil_r.
  - destruct (Hp h trace) as [more1 H1].
    destruct (p h trace) as [trace1 r]; simpl in H1; subst trace1.
    destruct (IH h (trace ++ more1)%list) as [more2 H2].
    destruct (promise_all rest h (trace ++ more1)%list) as [trace2 rs];
      simpl in H2; subst trace2.
    exists (more1 ++ more2)%list. simpl. symmetry. apply app_assoc.
Qed.

Lemma silent_find_named (name : string) (headers : list value) :
  silent (find_named name headers).
Proof.
  induction headers as [ | hd rest IH]; simpl.
  - apply silent_ret.
  - apply silent_bind; [ apply silent_get | intros n ].
    destruct (Js.is_string name n); [ apply silent_ret | exact IH ].
Qed.

Lemma silent_header_value (name : string) (headers : value) :
  silent (header_value name headers).
Proof.
  destruct headers; simpl; auto with silent.
  apply silent_bind; [ apply silent_find_named | intros; apply silent_ret ].
Qed.

Lemma extends_email_detail (msg : value) : extends (email_detail msg).
Proof.
  unfold email_detail.
  apply extends_bind; [ apply extends_silent, silent_get | intros id ].
  apply extends_bind; [ apply extends_await | intros detail ].
  apply extends_silent.
  apply silent_bind; [ apply silent_get | intros payload ]. cbv zeta.
  repeat (apply silent_bind; [ apply silent_header_value | intros ? ]).
  apply silent_ret.
Qed.

(** The list handler opens with its list request; the fetches follow. *)
Lemma list_emails_opens_with_request :
  forall (args : value) (h : host) (trace : list call),
    exists fetches,
      fst (handleListEmails args h trace)
        = (trace ++ list_emails_request args :: fetches)%list.
Proof.
  intros args h trace.
  unfold handleListEmails. cbv zeta.
  change (Call gmail_users_messages_list
            (VObj [("userId", VStr "me");
                   ("maxResults", Js.or_else (Js.opt_field "maxResults" args) (VNum 10));
                   ("q", Js.or_else (Js.opt_field "query" args) (VStr EmptyString))]))
    with (list_emails_request args).
  destruct (provider h trace (list_emails_request args)) as [data | reason] eqn:E.
  - rewrite (try_await_ok _ _ _ h trace data E).
    match goal with
    | |- context [try_catch ?body ?hd h ?tr] =>
        assert (Hext : extends (try_catch body hd))
    end.
    { apply extends_try_catch.
      - apply extends_bind; [ apply extends_silent, silent_get | intros listed ].
        cbv zeta.
        apply extends_bind; [ | intros; apply extends_silent, silent_ret ].
        destruct (Js.or_else listed (VArr [])); try apply extends_silent, silent_throw.
        apply extends_promise_all. apply Forall_forall.
        intros p Hp. apply in_map_iff in Hp. destruct Hp as [msg [<- _]].
        apply extends_email_detail.
      - intros e. apply extends_silent, silent_report. }
    destruct (Hext h (trace ++ [list_emails_request args])%list) as [fetches Hf].
    exists fetches. rewrite Hf. rewrite <- app_assoc. reflexivity.
  - rewrite (try_await_err _ _ _ h trace reason E).
    exists []. apply silent_report.
Qed.

(** C5: on every argument value, host and call history, the search handler
    issues the calls the list handler issues, opening with the same list
    request (mailbox [me], [maxResults] defaulting to 10, the query to the
    empty string), and ends the same way, with the same result or the same
    exception. *)
Theorem C5_search_emails_is_list_emails :
  forall (args : value) (h : host) (trace : list call),
    handleSearchEmails args h trace = handleListEmails args h trace
    /\ exists fetches,
         fst (handleSearchEmails args h trace)
           = (trace ++ list_emails_request args :: fetches)%list
         /\ fst (handleListEmails args h trace)
            = (trace ++ list_emails_request args :: fetches)%list.
Proof.
  intros args h trace.
  assert (Hsame : handleSearchEmails args h trace = handleListEmails args h trace).
  { unfold handleSearchEmails, handleListEmails. reflexivity. }
  split; [ exact Hsame | ].
  destruct (list_emails_opens_with_request args h trace) as [fetches Hf].
  exists fetches. rewrite Hsame. split; exact Hf.
Qed.

(** ** What the catch blocks make of a thrown value *)

Lemma report_type_error (prefix : string) (t : Js.type_error)
      (h : host) (trace : list call) :
  report prefix (TypeError t) h trace
    = (trace, inl (failure (prefix ++ type_error_message h t))).
Proof. reflexivity. Qed.

Lemma report_provider_error (prefix : string) (reason : value) (s : string)
      (h : host) (trace : list call) :
  Js.nullish reason = false ->
  Js.to_string (Js.field "message" reason) = inl s ->
  report prefix (ProviderError reason) h trace
    = (trace, inl (failure (prefix ++ s))).
Proof.
  intros Hreason Hs.
  unfold report, bind, error_message, get, interpolate. rewrite Hreason. simpl.
  rewrite Hs. reflexivity.
Qed.

(** When a catch block returns, it returns the error envelope. *)
Lemma report_outcome (prefix : string) (e : thrown) (h : host)
      (trace : list call) (r : ToolResult) :
  snd (report prefix e h trace) = inl r ->
  exists s, r = failure (prefix ++ s).
Proof.
  unfold report, bind.
  destruct (error_message e h trace) as [trace1 [m | e1]]; simpl;
    [ | discriminate ].
  destruct (interpolate m h trace1) as [trace2 [s | e2]]; simpl;
    [ | discriminate ].
  intros E. inversion E. exists s. reflexivity.
Qed.

Lemma reportable_type_error (h : host) (t : Js.type_error) :
  reportable h (TypeError t).
Proof.
  exists (type_error_message h t). intros prefix trace.
  apply report_type_error.
Qed.

Lemma reportable_provider_error (h : host) (trace : list call) (c : call)
      (reason : value) :
  polite h -> provider h trace c = Rejected reason ->
  reportable h (ProviderError reason).
Proof.
  intros Hpolite Hrej.
  destruct (Hpolite trace c reason Hrej) as [Hreason [s Hs]].
  exists s. intros prefix trace'.
  apply report_provider_error; assumption.
Qed.

(** ** Computations whose exceptions can be reported *)

Lemma tame_ret {A : Type} (a : A) : tame (ret a).
Proof. intros h trace e _ E. discriminate E. Qed.

Lemma tame_ask {A : Type} (f : host -> A) : tame (ask f).
Proof. intros h trace e _ E. discriminate E. Qed.

Lemma tame_throw {A : Type} (t : Js.type_error) : tame (@throw A (TypeError t)).
Proof.
  intros h trace e _ E. simpl in E. inversion E.
  apply reportable_type_error.
Qed.

Lemma tame_lift {A : Type} (r : A + Js.type_error) : tame (lift r).
Proof. destruct r; [ apply tame_ret | apply tame_throw ]. Qed.

Lemma tame_await (c : call) : tame (await c).
Proof.
  intros h trace e Hpolite. unfold await. simpl.
  destruct (provider h trace c) as [data | reason] eqn:E; intros He;
    inversion He.
  exact (reportable_provider_error h trace c reason Hpolite E).
Qed.

Lemma tame_bind {A B : Type} (m : M A) (k : A -> M B) :
  tame m -> (forall a, tame (k a)) -> tame (bind m k).
Proof.
  intros Hm Hk h trace e Hpolite. unfold bind.
  specialize (Hm h trace).
  destruct (m h trace) as [trace1 [a | e1]]; simpl in *.
  - apply Hk. exact Hpolite.
  - intros E. inversion E; subst. apply Hm; [ exact Hpolite | reflexivity ].
Qed.

Lemma tame_get (k : string) (v : value) : tame (get k v).
Proof.
  unfold get. destruct (Js.nullish v); [ apply tame_throw | apply tame_ret ].
Qed.

Lemma tame_destructure (v : value) : tame (destructure v).
Proof.
  unfold destructure. destruct (Js.nullish v); [ apply tame_throw | apply tame_ret ].
Qed.

Lemma tame_interpolate (v : value) : tame (interpolate v).
Proof. apply tame_lift. Qed.

Create HintDb tame.

#[export] Hint Resolve tame_ret tame_ask tame_throw tame_lift tame_await
  tame_get tame_destructure tame_interpolate : tame.

Ltac tamed :=
  repeat first [ solve [ auto with tame ] | apply tame_bind; [ | intro ] ].

Lemma tame_promise_all {A : Type} (ps : list (M A)) :
  Forall tame ps -> tame (promise_all ps).
Proof.
  induction 1 as [ | p rest Hp _ IH]; simpl.
  - apply tame_ret.
  - intros h trace e Hpolite.
    specialize (Hp h trace).
    destruct (p h trace) as [trace1 [a | e1]]; simpl in *.
    + specialize (IH h trace1 e Hpolite).
      destruct (promise_all rest h trace1) as [trace2 [others | e2]];
        simpl in *; intros E; [ discriminate | ].
      inversion E; subst. apply IH. reflexivity.
    + destruct (promise_all rest h trace1) as [trace2 rs]. simpl.
      intros E. inversion E; subst. apply Hp; [ exact Hpolite | reflexivity ].
Qed.

Lemma tame_map_sync {A B : Type} (f : A -> M B) (items : list A) :
  (forall x, tame (f x)) -> tame (map_sync f items).
Proof.
  intros Hf. induction items as [ | x rest IH]; simpl.
  - apply tame_ret.
  - apply tame_bind; [ apply Hf | intros y ].
    apply tame_bind; [ exact IH | intros ys; apply tame_ret ].
Qed.

Lemma tame_find_named (name : string) (headers : list value) :
  tame (find_named name headers).
Proof.
  induction headers as [ | hd rest IH]; simpl.
  - apply tame_ret.
  - apply tame_bind; [ apply tame_get | intros n ].
    destruct (Js.is_string name n); [ apply tame_ret | exact IH ].
Qed.

Lemma tame_header_value (name : string) (headers : value) :
  tame (header_value name headers).
Proof.
  destruct headers; simpl; auto with tame.
  apply tame_bind; [ apply tame_find_named | intros; apply tame_ret ].
Qed.

Lemma tame_email_detail (msg : value) : tame (email_detail msg).
Proof.
  unfold email_detail.
  apply tame_bind; [ apply tame_get | intros id ].
  apply tame_bind; [ apply tame_await | intros detail ].
  apply tame_bind; [ apply tame_get | intros payload ]. cbv zeta.
  repeat (apply tame_bind; [ apply tame_header_value | intros ? ]).
  apply tame_ret.
Qed.

Lemma tame_optional_line (label : string) (c : value) :
  tame (optional_line label c).
Proof. unfold optional_line. destruct (Js.truthy c); tamed. Qed.

Lemma tame_message (to subject body cc bcc : value) :
  tame (message to subject body cc bcc).
Proof.
  unfold message.
  apply tame_bind; [ apply tame_interpolate | intros to_line ].
  apply tame_bind; [ apply tame_optional_line | intros cc_line ].
  apply tame_bind; [ apply tame_optional_line | intros bcc_line ].
  apply tame_bind; [ apply tame_interpolate | intros subject_line ].
  apply tame_lift.
Qed.

Lemma tame_zoned (t : value) : tame (zoned t).
Proof. unfold zoned. tamed. Qed.

Lemma tame_attendee_records (attendees : value) :
  tame (attendee_records attendees).
Proof. destruct attendees; simpl; auto with tame. Qed.

#[export] Hint Resolve tame_header_value tame_email_detail tame_optional_line
  tame_message tame_zoned tame_attendee_records : tame.

Lemma tame_update_patch (args : value) : tame (update_patch args).
Proof.
  unfold update_patch, set_zoned_if, set_attendees_if. cbv zeta.
  apply tame_bind.
  { destruct (Js.truthy (Js.field "start" args)); tamed. }
  intros event1. apply tame_bind.
  { destruct (Js.truthy (Js.field "end" args)); tamed. }
  intros event2.
  destruct (Js.truthy (Js.field "attendees" args)); tamed.
Qed.

Lemma tame_event_summary (event : value) : tame (event_summary event).
Proof. unfold event_summary. tamed. Qed.

Lemma tame_project_items (items : value) : tame (project_items items).
Proof.
  destruct items; simpl; auto with tame.
  apply tame_bind; [ | intros; apply tame_ret ].
  apply tame_map_sync. apply tame_event_summary.
Qed.

#[export] Hint Resolve tame_update_patch tame_project_items : tame.

(** A handler whose body is tame returns a result. *)
Lemma try_catch_returns (body : M ToolResult) (prefix : string)
      (h : host) (trace : list call) :
  tame body -> polite h ->
  exists r, snd (try_catch body (report prefix) h trace) = inl r.
Proof.
  intros Hbody Hpolite. unfold try_catch.
  specialize (Hbody h trace).
  destruct (body h trace) as [trace1 [r | e]]; simpl in *.
  - exists r. reflexivity.
  - destruct (Hbody e Hpolite eq_refl) as [s Hs].
    rewrite Hs. eexists. reflexivity.
Qed.

Lemma tame_list_body (args : value) :
  tame (let maxResults := Js.or_else (Js.opt_field "maxResults" args) (VNum 10) in
        let query := Js.or_else (Js.opt_field "query" args) (VStr EmptyString) in
        response <- await (Call gmail_users_messages_list
                             (VObj [("userId", VStr "me");
                                    ("maxResults", maxResults);
                                    ("q", query)])) ;;
        listed <- get "messages" response ;;
        let messages := Js.or_else listed (VArr []) in
        emailDetails <-
          match messages with
          | VArr msgs => promise_all (map email_detail msgs)
          | _ => throw (TypeError (Js.NotAFunction "messages.map"))
          end ;;
        ret (success (Json.stringify (VArr emailDetails)))).
Proof.
  cbv zeta.
  apply tame_bind; [ apply tame_await | intros response ].
  apply tame_bind; [ apply tame_get | intros listed ].
  apply tame_bind; [ | intros; apply tame_ret ].
  destruct (Js.or_else listed (VArr [])); try apply tame_throw.
  apply tame_promise_all. apply Forall_forall.
  intros p Hp. apply in_map_iff in Hp. destruct Hp as [msg [<- _]].
  apply tame_email_detail.
Qed.

Lemma unknown_tool_throws (tool : string) (arguments : value)
      (h : host) (trace : list call) :
  ~ In tool (map name tools) ->
  callTool tool arguments h trace
    = (trace, inr (McpError MethodNotFound ("Unknown tool: " ++ tool))).
Proof.
  intros Hnot. unfold callTool.
  repeat match goal with
         | |- context [String.eqb tool ?lit] =>
             destruct (String.eqb_spec tool lit) as [-> | _];
             [ exfalso; apply Hnot; simpl; tauto | ]
         end.
  reflexivity.
Qed.

(** Case analysis on a tool name of the catalog. *)
Ltac each_tool H :=
  simpl in H;
  repeat (destruct H as [H | H]; [ subst | ]); [ .. | contradiction ].

(** X1: against a provider that rejects only with values whose message
    can be read and printed, the dispatcher returns a tool result exactly
    for the names of the catalog: no handler lets an exception out, and
    every other name throws. *)
Theorem X1_handlers_never_throw :
  forall (tool : string) (arguments : value) (h : host) (trace : list call),
    polite h ->
    ((exists r, snd (callTool tool arguments h trace) = inl r)
     <-> In tool (map name tools)).
Proof.
  intros tool arguments h trace Hpolite. split.
  - intros [r Hr].
    destruct (in_dec string_dec tool (map name tools)) as [Hin | Hnot];
      [ exact Hin | ].
    rewrite (unknown_tool_throws tool arguments h trace Hnot) in Hr.
    discriminate Hr.
  - intros Hin. each_tool Hin; cbv [callTool String.eqb Ascii.eqb Bool.eqb].
    + apply try_catch_returns; [ apply tame_list_body | exact Hpolite ].
    + apply try_catch_returns; [ apply tame_list_body | exact Hpolite ].
    + apply try_catch_returns; [ | exact Hpolite ]. cbv zeta. tamed.
    + apply try_catch_returns; [ | exact Hpolite ]. cbv zeta. tamed.
    + apply try_catch_returns; [ | exact Hpolite ]. cbv zeta.
      apply tame_bind; [ | intro; tamed ].
      destruct (Js.truthy (Js.opt_field "timeMin" arguments)); tamed.
    + apply try_catch_returns; [ | exact Hpolite ]. cbv zeta. tamed.
    + apply try_catch_returns; [ | exact Hpolite ]. cbv zeta. tamed.
    + apply try_catch_returns; [ | exact Hpolite ]. cbv zeta. tamed.
Qed.

Lemma sample_host_is_polite : polite sample_host.
Proof.
  intros trace [m p] reason. unfold sample_host. simpl.
  destruct m; intros H; inversion H.
  split; [ reflexivity | ]. exists "quota exceeded". reflexivity.
Defined.

Lemma X1_handlers_never_throw_witness :
  exists r,
    snd (callTool "create_event" (VObj [("summary", VStr "standup")])
           sample_host []) = inl r.
Proof.
  apply (proj2 (X1_handlers_never_throw "create_event"
                  (VObj [("summary", VStr "standup")]) sample_host []
                  sample_host_is_polite)).
  simpl. tauto.
Defined.

(** ** The shape of what a handler returns *)

Lemma yields_ret {A : Type} (P : A -> Prop) (a : A) : P a -> yields P (ret a).
Proof. intros Ha h trace a' E. simpl in E. inversion E; subst. exact Ha. Qed.

Lemma yields_throw {A : Type} (P : A -> Prop) (e : thrown) :
  yields P (@throw A e).
Proof. intros h trace a E. discriminate E. Qed.

Lemma yields_bind {A B : Type} (P : B -> Prop) (m : M A) (k : A -> M B) :
  (forall a, yields P (k a)) -> yields P (bind m k).
Proof.
  intros Hk h trace b. unfold bind.
  destruct (m h trace) as [trace1 [a | e]]; simpl.
  - apply Hk.
  - discriminate.
Qed.

Lemma yields_try_catch {A : Type} (P : A -> Prop) (body : M A)
      (handler : thrown -> M A) :
  yields P body -> (forall e, yields P (handler e)) ->
  yields P (try_catch body handler).
Proof.
  intros Hb Hh h trace a. unfold try_catch.
  specialize (Hb h trace).
  destruct (body h trace) as [trace1 [a1 | e]]; simpl in *.
  - apply Hb.
  - apply Hh.
Qed.

Lemma yields_report (P : ToolResult -> Prop) (prefix : string) (e : thrown) :
  (forall s, P (failure (prefix ++ s))) -> yields P (report prefix e).
Proof.
  intros HP h trace r E.
  destruct (report_outcome prefix e h trace r E) as [s ->]. apply HP.
Qed.

Lemma stringify_array_is_text (items : list value) :
  exists t, Json.stringify (VArr items) = Some t.
Proof.
  unfold Json.stringify. simpl.
  destruct (map _ items); eexists; reflexivity.
Qed.

(** Through the binds of a handler body down to its [ret]. *)
Ltac yielded :=
  repeat first [ apply yields_bind; intro | apply yields_throw ];
  try apply yields_ret.

(** X2: whatever a tool returns is one of two objects: the success
    object, one text entry and no [isError], or the error envelope, one
    text entry that starts with the tool's own prefix and [isError: true].
    The success text is a string for every tool but [list_events]. *)
Theorem X2_results_have_one_of_two_shapes :
  forall (tool : string) (arguments : value) (h : host) (trace : list call)
         (r : ToolResult),
    snd (callTool tool arguments h trace) = inl r ->
    (exists t, r = {| content := [ {| type := "text"; text := t |} ];
                      isError := None |}
               /\ (tool <> "list_events" -> exists s, t = Some s))
    \/ (exists s, r = {| content := [ {| type := "text";
                                         text := Some (error_prefix tool ++ s) |} ];
                         isError := Some true |}).
Proof.
  intros tool arguments h trace r.
  destruct (in_dec string_dec tool (map name tools)) as [Hin | Hnot].
  2: { rewrite (unknown_tool_throws tool arguments h trace Hnot). discriminate. }
  each_tool Hin; cbv [callTool error_prefix String.eqb Ascii.eqb Bool.eqb];
    intros Hr;
    match type of Hr with
    | snd (?handler arguments h trace) = inl r =>
        pattern r;
        match goal with
        | |- ?Q r =>
            cut (yields Q (handler arguments));
            [ intros Hy; exact (Hy h trace r Hr) | clear Hr; unfold handler ]
        end
    end;
    (apply yields_try_catch;
     [ cbv zeta
     | intros e; apply yields_report; intros s; right; exists s; reflexivity ]).
  - yielded. left. eexists. split; [ reflexivity | intros _ ].
    apply stringify_array_is_text.
  - yielded. left. eexists. split; [ reflexivity | intros _ ].
    apply stringify_array_is_text.
  - yielded. left. eexists. split; [ reflexivity | intros _ ].
    eexists. reflexivity.
  - yielded. left. eexists. split; [ reflexivity | intros _ ].
    eexists. reflexivity.
  - yielded. left. eexists. split; [ reflexivity | intros Hne ].
    contradiction Hne. reflexivity.
  - yielded. left. eexists. split; [ reflexivity | intros _ ].
    eexists. reflexivity.
  - yielded. left. eexists. split; [ reflexivity | intros _ ].
    eexists. reflexivity.
  - yielded. left. eexists. split; [ reflexivity | intros _ ].
    eexists. reflexivity.
Qed.

Lemma X2_results_witness :
  exists s,
    {| content := [ {| type := "text";
                       text := Some "Error creating event: quota exceeded" |} ];
       isError := Some true |}
    = {| content := [ {| type := "text";
                         text := Some (error_prefix "create_event" ++ s) |} ];
         isError := Some true |}.
Proof.
  destruct (X2_results_have_one_of_two_shapes "create_event"
              (VObj [("summary", VStr "standup")]) sample_host [] _ eq_refl)
    as [[t [Hs _]] | Hf].
  - discriminate Hs.
  - exact Hf.
Defined.

(** ** One request per invocation *)

Lemma silent_optional_line (label : string) (c : value) :
  silent (optional_line label c).
Proof. unfold optional_line. destruct (Js.truthy c); silence. Qed.

#[export] Hint Resolve silent_optional_line silent_update_patch
  silent_project_items silent_event_summary : silent.

Lemma silent_message (to subject body cc bcc : value) :
  silent (message to subject body cc bcc).
Proof. unfold message. silence. Qed.

#[export] Hint Resolve silent_message : silent.

(** A silent step in front of a handler body either hands a value on or
    ends the handler with no call issued. *)
Lemma try_pre {A : Type} (pre : M A) (k : A -> M ToolResult) (prefix : string)
      (h : host) (trace : list call) :
  silent pre ->
  (exists a, snd (pre h trace) = inl a
             /\ try_catch (bind pre k) (report prefix) h trace
                = try_catch (k a) (report prefix) h trace)
  \/ (exists e, snd (pre h trace) = inr e
                /\ try_catch (bind pre k) (report prefix) h trace
                   = report prefix e h trace).
Proof.
  intros Hpre. pose proof (silent_run pre h trace Hpre) as E.
  destruct (snd (pre h trace)) as [a | e].
  - left. exists a. split; [ reflexivity | ].
    apply (try_bind_ok _ _ _ h trace trace a E).
  - right. exists e. split; [ reflexivity | ].
    apply (try_bind_err _ _ _ h trace trace e E).
Qed.

(** Runs the silent steps in front of the request of a handler; a step
    that throws leaves the goal about the catch block alone. *)
Ltac run_pre h trace :=
  match goal with
  | |- context [try_catch (bind ?pre ?k) (report ?p) h trace] =>
      let Hs := fresh "Hs" in
      assert (Hs : silent pre) by (solve [ auto with silent ]);
      let a := fresh "a" in
      let e := fresh "e" in
      let Ha := fresh "Ha" in
      let Hrun := fresh "Hrun" in
      destruct (try_pre pre k p h trace Hs) as [[a [Ha Hrun]] | [e [Ha Hrun]]];
      rewrite Hrun; clear Hrun Hs; cbv beta
  end.

(** X3: the tools [send_email], [modify_email], [list_events],
    [create_event], [update_event] and [delete_event] issue at most one
    request per invocation, to the client method of the tool: nothing is
    retried, whatever the provider answers. *)
Theorem X3_one_request_per_invocation :
  forall (tool : string) (target : api) (arguments : value)
         (h : host) (trace : list call),
    api_of tool = Some target ->
    fst (callTool tool arguments h trace) = trace
    \/ exists c, fst (callTool tool arguments h trace) = (trace ++ [c])%list
                 /\ method c = target.
Proof.
  intros tool target arguments h trace Htool.
  unfold api_of in Htool.
  repeat match type of Htool with
         | context [String.eqb tool ?lit] =>
             destruct (String.eqb_spec tool lit) as [-> | _]
         end;
    inversion Htool; subst target;
    cbv [callTool String.eqb Ascii.eqb Bool.eqb];
    match goal with
    | |- context [fst (?handler arguments h trace)] => unfold handler
    end;
    cbv zeta.
  - run_pre h trace; [ | left; apply silent_report ].
    run_pre h trace; [ | left; apply silent_report ].
    right. eexists.
    split; [ apply try_request_trace; intros; auto with silent | reflexivity ].
  - run_pre h trace; [ | left; apply silent_report ].
    right. eexists.
    split; [ apply try_request_trace; intros; auto with silent | reflexivity ].
  - fold (handleListEvents arguments). rewrite list_events_runs.
    right. eexists.
    split; [ apply try_request_trace; intros; [ silence | auto with silent ]
           | reflexivity ].
  - run_pre h trace; [ | left; apply silent_report ].
    run_pre h trace; [ | left; apply silent_report ].
    run_pre h trace; [ | left; apply silent_report ].
    run_pre h trace; [ | left; apply silent_report ].
    right. eexists.
    split; [ apply try_request_trace; intros; auto with silent | reflexivity ].
  - run_pre h trace; [ | left; apply silent_report ].
    run_pre h trace; [ | left; apply silent_report ].
    right. eexists.
    split; [ apply try_request_trace; intros; auto with silent | reflexivity ].
  - run_pre h trace; [ | left; apply silent_report ].
    right. eexists.
    split; [ apply try_request_trace; intros; [ silence | auto with silent ]
           | reflexivity ].
Qed.

Lemma X3_one_request_witness :
  fst (callTool "delete_event" (VObj [("eventId", VStr "e1")]) sample_host [])
    = []
  \/ exists c,
      fst (callTool "delete_event" (VObj [("eventId", VStr "e1")]) sample_host [])
        = ([] ++ [c])%list
      /\ method c = calendar_events_delete.
Proof.
  apply (X3_one_request_per_invocation "delete_event" calendar_events_delete
           (VObj [("eventId", VStr "e1")]) sample_host []).
  reflexivity.
Defined.

(** ** Missing arguments *)

(** X4: called with no arguments object ([undefined] or [null]), the five
    tools that destructure their arguments issue no request and return the
    error envelope with the engine's message for the failed destructuring. *)
Theorem X4_destructuring_tools_without_arguments :
  forall (tool : string) (arguments : value) (h : host) (trace : list call),
    In tool ["send_email"; "modify_email"; "create_event"; "update_event";
             "delete_event"] ->
    Js.nullish arguments = true ->
    callTool tool arguments h trace
      = (trace,
         inl {| content :=
                  [ {| type := "text";
                       text := Some (error_prefix tool
                                       ++ type_error_message h
                                            (Js.CannotDestructure arguments)) |} ];
                isError := Some true |}).
Proof.
  intros tool arguments h trace Hin Hargs.
  destruct arguments; try discriminate Hargs;
    each_tool Hin; reflexivity.
Qed.

Lemma X4_without_arguments_witness :
  callTool "delete_event" VUndefined sample_host []
    = ([],
       inl {| content := [ {| type := "text";
                              text := Some "Error deleting event: TypeError" |} ];
              isError := Some true |}).
Proof.
  apply (X4_destructuring_tools_without_arguments
           "delete_event" VUndefined sample_host []).
  - simpl. tauto.
  - reflexivity.
Defined.

(** X5: the three listing tools read their arguments through optional
    chaining, so no arguments object at all is the same to them as an
    empty one. *)
Theorem X5_listing_tools_without_arguments :
  forall (tool : string) (arguments : value) (h : host) (trace : list call),
    In tool ["list_emails"; "search_emails"; "list_events"] ->
    Js.nullish arguments = true ->
    callTool tool arguments h trace = callTool tool (VObj []) h trace.
Proof.
  intros tool arguments h trace Hin Hargs.
  destruct arguments; try discriminate Hargs;
    each_tool Hin; reflexivity.
Qed.

Lemma X5_listing_without_arguments_witness :
  callTool "list_events" VNull sample_host []
    = callTool "list_events" (VObj []) sample_host [].
Proof.
  apply (X5_listing_tools_without_arguments "list_events" VNull sample_host []).
  - simpl. tauto.
  - reflexivity.
Defined.

(** ** A rejected request *)

(** A handler that opens with a request and whose only issued call was
    rejected answers with the error envelope for that rejection. *)
Lemma rejected_request (c0 : call) (k : value -> M ToolResult) (prefix : string)
      (h : host) (trace : list call) (c : call)
      (outcome : ToolResult + thrown) (e : value) (m : string) :
  (forall data, extends (k data)) ->
  try_catch (bind (await c0) k) (report prefix) h trace
    = ((trace ++ [c])%list, outcome) ->
  provider h trace c = Rejected e ->
  Js.nullish e = false ->
  Js.field "message" e = VStr m ->
  outcome = inl (failure (prefix ++ m)).
Proof.
  intros Hk Hrun Hprov He Hm.
  destruct (provider h trace c0) as [data | reason] eqn:E.
  - exfalso.
    rewrite (try_await_ok _ _ _ h trace data E) in Hrun.
    assert (Hext : extends (try_catch (k data) (report prefix))).
    { apply extends_try_catch; [ apply Hk | ].
      intros e0. apply extends_silent, silent_report. }
    destruct (Hext h (trace ++ [c0])%list) as [more Hmore].
    rewrite Hrun in Hmore. simpl in Hmore.
    rewrite <- app_assoc in Hmore. apply app_inv_head in Hmore.
    simpl in Hmore. inversion Hmore; subst c0.
    rewrite E in Hprov. discriminate Hprov.
  - rewrite (try_await_err _ _ _ h trace reason E) in Hrun.
    pose proof (f_equal fst Hrun) as Hfst.
    rewrite silent_report in Hfst. simpl in Hfst.
    apply app_inv_head in Hfst. inversion Hfst; subst c0.
    rewrite E in Hprov. inversion Hprov; subst reason.
    rewrite (report_provider_error prefix e m) in Hrun;
      [ | exact He | rewrite Hm; reflexivity ].
    inversion Hrun. reflexivity.
Qed.

Lemma report_issues_nothing (prefix : string) (e : thrown) (h : host)
      (trace : list call) (c : call) (outcome : ToolResult + thrown) :
  report prefix e h trace <> ((trace ++ [c])%list, outcome).
Proof.
  intros E. apply (f_equal fst) in E. rewrite silent_report in E.
  exact (app_one_neq _ _ E).
Qed.

Lemma extends_after_listing (response : value) :
  extends (listed <- get "messages" response ;;
           emailDetails <-
             match Js.or_else listed (VArr []) with
             | VArr msgs => promise_all (map email_detail msgs)
             | _ => throw (TypeError (Js.NotAFunction "messages.map"))
             end ;;
           ret (success (Json.stringify (VArr emailDetails)))).
Proof.
  apply extends_bind; [ apply extends_silent, silent_get | intros listed ].
  apply extends_bind; [ | intros; apply extends_silent, silent_ret ].
  destruct (Js.or_else listed (VArr [])); try apply extends_silent, silent_throw.
  apply extends_promise_all. apply Forall_forall.
  intros p Hp. apply in_map_iff in Hp. destruct Hp as [msg [<- _]].
  apply extends_email_detail.
Qed.

(** X6: for each of the eight tools, an invocation whose one issued
    request was rejected with an error of message [m] returns the error
    envelope whose text is the tool's prefix followed by [m]; the
    rejection is not thrown on. *)
Theorem X6_rejection_becomes_error_envelope :
  forall (tool : string) (arguments : value) (h : host) (trace : list call)
         (outcome : ToolResult + thrown) (c : call) (e : value) (m : string),
    In tool (map name tools) ->
    callTool tool arguments h trace = ((trace ++ [c])%list, outcome) ->
    provider h trace c = Rejected e ->
    Js.nullish e = false ->
    Js.field "message" e = VStr m ->
    outcome = inl {| content := [ {| type := "text";
                                     text := Some (error_prefix tool ++ m) |} ];
                     isError := Some true |}.
Proof.
  intros tool arguments h trace outcome c e m Hin Hrun Hprov He Hm.
  revert Hrun.
  each_tool Hin; cbv [callTool error_prefix String.eqb Ascii.eqb Bool.eqb];
    match goal with
    | |- ?handler arguments h trace = _ -> _ => unfold handler
    end;
    cbv zeta.
  - intros Hrun.
    exact (rejected_request _ _ _ h trace c outcome e m
             extends_after_listing Hrun Hprov He Hm).
  - intros Hrun.
    exact (rejected_request _ _ _ h trace c outcome e m
             extends_after_listing Hrun Hprov He Hm).
  - run_pre h trace; [ | intros Hrun; destruct (report_issues_nothing _ _ _ _ _ _ Hrun) ].
    run_pre h trace; [ | intros Hrun; destruct (report_issues_nothing _ _ _ _ _ _ Hrun) ].
    intros Hrun.
    refine (rejected_request _ _ _ h trace c outcome e m _ Hrun Hprov He Hm).
    intros data. apply extends_silent. auto with silent.
  - run_pre h trace; [ | intros Hrun; destruct (report_issues_nothing _ _ _ _ _ _ Hrun) ].
    intros Hrun.
    refine (rejected_request _ _ _ h trace c outcome e m _ Hrun Hprov He Hm).
    intros data. apply extends_silent. auto with silent.
  - fold (handleListEvents arguments). rewrite list_events_runs.
    intros Hrun.
    refine (rejected_request _ _ _ h trace c outcome e m _ Hrun Hprov He Hm).
    intros data. apply extends_silent. silence.
  - run_pre h trace; [ | intros Hrun; destruct (report_issues_nothing _ _ _ _ _ _ Hrun) ].
    run_pre h trace; [ | intros Hrun; destruct (report_issues_nothing _ _ _ _ _ _ Hrun) ].
    run_pre h trace; [ | intros Hrun; destruct (report_issues_nothing _ _ _ _ _ _ Hrun) ].
    run_pre h trace; [ | intros Hrun; destruct (report_issues_nothing _ _ _ _ _ _ Hrun) ].
    intros Hrun.
    refine (rejected_request _ _ _ h trace c outcome e m _ Hrun Hprov He Hm).
    intros data. apply extends_silent. auto with silent.
  - run_pre h trace; [ | intros Hrun; destruct (report_issues_nothing _ _ _ _ _ _ Hrun) ].
    run_pre h trace; [ | intros Hrun; destruct (report_issues_nothing _ _ _ _ _ _ Hrun) ].
    intros Hrun.
    refine (rejected_request _ _ _ h trace c outcome e m _ Hrun Hprov He Hm).
    intros data. apply extends_silent. auto with silent.
  - run_pre h trace; [ | intros Hrun; destruct (report_issues_nothing _ _ _ _ _ _ Hrun) ].
    intros Hrun.
    refine (rejected_request _ _ _ h trace c outcome e m _ Hrun Hprov He Hm).
    intros data. apply extends_silent. silence.
Qed.

Lemma X6_rejection_witness :
  snd (callTool "create_event" (VObj [("summary", VStr "standup")]) sample_host [])
    = inl {| content := [ {| type := "text";
                             text := Some "Error creating event: quota exceeded" |} ];
             isError := Some true |}.
Proof.
  exact (X6_rejection_becomes_error_envelope
           "create_event" (VObj [("summary", VStr "standup")]) sample_host []
           _ _ (VObj [("message", VStr "quota exceeded")]) "quota exceeded"
           (or_intror (or_intror (or_intror (or_intror (or_intror (or_introl eq_refl))))))
           eq_refl eq_refl eq_refl eq_refl).
Defined.

(** ** The fan-out of the mail listings *)

Lemma bind_await_trace {B : Type} (c : call) (k : value -> M B)
      (h : host) (trace : list call) :
  (forall data, silent (k data)) ->
  fst (bind (await c) k h trace) = (trace ++ [c])%list.
Proof.
  intros Hk. unfold bind, await.
  destruct (provider h trace c) as [data | reason]; [ apply Hk | reflexivity ].
Qed.

Lemma silent_after_fetch (id detail : value) :
  silent (payload <- get "payload" detail ;;
          let headers := Js.opt_field "headers" payload in
          subject <- header_value "Subject" headers ;;
          from <- header_value "From" headers ;;
          date <- header_value "Date" headers ;;
          ret (VObj [("id", id); ("subject", subject); ("from", from);
                     ("date", date)])).
Proof.
  apply silent_bind; [ apply silent_get | intros payload ]. cbv zeta.
  repeat (apply silent_bind; [ apply silent_header_value | intros ? ]).
  apply silent_ret.
Qed.

(** A listed entry that is an object costs one fetch; for [null] or
    [undefined] the callback fails before it asks. *)
Lemma email_detail_trace (msg : value) (h : host) (trace : list call) :
  fst (email_detail msg h trace)
    = if Js.nullish msg then trace else (trace ++ [get_request msg])%list.
Proof.
  unfold email_detail. unfold bind at 1. unfold get at 1.
  destruct (Js.nullish msg); [ reflexivity | ].
  cbn [ret]. apply bind_await_trace. intros data. apply silent_after_fetch.
Qed.

Lemma promise_all_cons_trace {A : Type} (p : M A) (rest : list (M A))
      (h : host) (trace : list call) :
  fst (promise_all (p :: rest) h trace)
    = fst (promise_all rest h (fst (p h trace))).
Proof.
  simpl. destruct (p h trace) as [trace1 r]. simpl.
  destruct (promise_all rest h trace1) as [trace2 rs]. reflexivity.
Qed.

Lemma fetches_trace (msgs : list value) (h : host) (trace : list call) :
  fst (promise_all (map email_detail msgs) h trace)
    = (trace ++ map get_request
                  (filter (fun msg => negb (Js.nullish msg)) msgs))%list.
Proof.
  revert trace. induction msgs as [ | msg rest IH]; intros trace.
  - simpl. symmetry. apply app_nil_r.
  - cbn [map]. rewrite promise_all_cons_trace, IH, email_detail_trace.
    cbn [filter]. destruct (Js.nullish msg); cbn [negb map].
    + reflexivity.
    + rewrite <- app_assoc. reflexivity.
Qed.

Lemma try_bind_trace {A B : Type} (m : M A) (k : A -> M B) (hd : thrown -> M B)
      (h : host) (trace : list call) :
  (forall a, silent (k a)) -> (forall e, silent (hd e)) ->
  fst (try_catch (bind m k) hd h trace) = fst (m h trace).
Proof.
  intros Hk Hhd. unfold try_catch, bind.
  destruct (m h trace) as [trace1 [a | e]]; simpl.
  - specialize (Hk a h trace1).
    destruct (k a h trace1) as [trace2 [b | e]]; simpl in *.
    + exact Hk.
    + rewrite Hhd. exact Hk.
  - apply Hhd.
Qed.

(** The listing handler once its list request has been answered with an
    array of messages. *)
Lemma listing_runs (args : value) (h : host) (trace : list call)
      (data : value) (msgs : list value) :
  provider h trace (list_emails_request args) = Resolved data ->
  Js.nullish data = false ->
  Js.field "messages" data = VArr msgs ->
  handleListEmails args h trace
    = try_catch
        (emailDetails <- promise_all (map email_detail msgs) ;;
         ret (success (Json.stringify (VArr emailDetails))))
        (report "Error fetching emails: ") h
        (trace ++ [list_emails_request args])%list.
Proof.
  intros Hprov Hdata Hmsgs.
  unfold handleListEmails. cbv zeta.
  etransitivity.
  { apply (try_await_ok (list_emails_request args) _ _ h trace data Hprov). }
  cbv beta.
  rewrite (try_bind_ok _ _ _ h _ _ (VArr msgs))
    by (unfold get; rewrite Hdata, Hmsgs; reflexivity).
  reflexivity.
Qed.

(** X7: when the list request is answered with an array of messages,
    [list_emails] and [search_emails] issue one fetch per entry that is
    not [null] or [undefined], in the order of the array and after the
    list request, whatever the fetches are answered with: [M] messages
    cost [M + 1] requests. *)
Theorem X7_listing_fans_out :
  forall (tool : string) (args : value) (h : host) (trace : list call)
         (data : value) (msgs : list value),
    In tool ["list_emails"; "search_emails"] ->
    provider h trace (list_emails_request args) = Resolved data ->
    Js.nullish data = false ->
    Js.field "messages" data = VArr msgs ->
    fst (callTool tool args h trace)
      = (trace ++ list_emails_request args
               :: map get_request
                    (filter (fun msg => negb (Js.nullish msg)) msgs))%list.
Proof.
  intros tool args h trace data msgs Hin Hprov Hdata Hmsgs.
  assert (H : fst (handleListEmails args h trace)
              = (trace ++ list_emails_request args
                       :: map get_request
                            (filter (fun msg => negb (Js.nullish msg)) msgs))%list).
  { rewrite (listing_runs args h trace data msgs Hprov Hdata Hmsgs).
    rewrite try_bind_trace; [ | intros; apply silent_ret | intros; apply silent_report ].
    rewrite fetches_trace. rewrite <- app_assoc. reflexivity. }
  each_tool Hin; exact H.
Qed.

Lemma X7_listing_fans_out_witness :
  fst (callTool "search_emails" (VObj [("query", VStr "from:a@x.com")])
         sample_host [])
    = [list_emails_request (VObj [("query", VStr "from:a@x.com")]);
       get_request (VObj [("id", VStr "m1")])].
Proof.
  apply (X7_listing_fans_out "search_emails"
           (VObj [("query", VStr "from:a@x.com")]) sample_host []
           (VObj [("messages", VArr [VObj [("id", VStr "m1")]])])
           [VObj [("id", VStr "m1")]]).
  - simpl. tauto.
  - reflexivity.
  - reflexivity.
  - reflexivity.
Defined.

Lemma promise_all_fails {A : Type} :
  forall (k : nat) (ps : list (M A)) (p : M A) (h : host)
         (trace : list call) (e : thrown),
    nth_error ps k = Some p ->
    snd (p h (fst (promise_all (firstn k ps) h trace))) = inr e ->
    exists e', snd (promise_all ps h trace) = inr e'.
Proof.
  induction k as [ | k IH]; intros ps p h trace e Hnth Hp;
    destruct ps as [ | q rest]; try discriminate Hnth.
  - simpl in Hnth. inversion Hnth; subst q. simpl in Hp. simpl.
    destruct (p h trace) as [trace1 r]. simpl in Hp. subst r.
    destruct (promise_all rest h trace1) as [trace2 rs].
    exists e. reflexivity.
  - simpl in Hnth. cbn [firstn] in Hp. rewrite promise_all_cons_trace in Hp.
    destruct (IH rest p h (fst (q h trace)) e Hnth Hp) as [e' He'].
    simpl. destruct (q h trace) as [trace1 r]. simpl in He'.
    destruct (promise_all rest h trace1) as [trace2 rs]. simpl in He'.
    subst rs. destruct r as [a | e0]; eexists; reflexivity.
Qed.

Lemma filter_objects (msgs : list value) :
  Forall (fun msg => Js.nullish msg = false) msgs ->
  filter (fun msg => negb (Js.nullish msg)) msgs = msgs.
Proof.
  induction 1 as [ | msg rest Hmsg _ IH]; simpl; [ reflexivity | ].
  rewrite Hmsg. simpl. rewrite IH. reflexivity.
Qed.

Lemma Forall_firstn_objects (k : nat) (msgs : list value) :
  Forall (fun msg => Js.nullish msg = false) msgs ->
  Forall (fun msg => Js.nullish msg = false) (firstn k msgs).
Proof.
  intros H. apply Forall_forall. intros x Hx.
  rewrite Forall_forall in H. apply H.
  rewrite <- (firstn_skipn k msgs). apply in_or_app. left. exact Hx.
Qed.

Lemma email_detail_rejected (msg : value) (h : host) (trace : list call)
      (reason : value) :
  Js.nullish msg = false ->
  provider h trace (get_request msg) = Rejected reason ->
  snd (email_detail msg h trace) = inr (ProviderError reason).
Proof.
  intros Hmsg Hprov.
  unfold email_detail, bind, get, await. rewrite Hmsg. simpl.
  unfold get_request in Hprov. rewrite Hprov. reflexivity.
Qed.


Lemma failing_fetch_host_is_polite : polite failing_fetch_host.
Proof.
  intros trace [m p] reason. unfold failing_fetch_host. simpl.
  destruct m; intros H; inversion H.
  split; [ reflexivity | ]. exists "backend error". reflexivity.
Defined.


(** ** Reading the headers *)

Lemma find_named_plain (name : string) (headers : list value)
      (h : host) (trace : list call) :
  Forall (fun x => Js.nullish x = false) headers ->
  find_named name headers h trace = (trace, inl (first_named name headers)).
Proof.
  induction 1 as [ | x rest Hx _ IH]; simpl; [ reflexivity | ].
  unfold bind, get. rewrite Hx. simpl.
  destruct (Js.is_string name (Js.field "name" x)); [ reflexivity | exact IH ].
Qed.

Lemma header_value_plain (name : string) (headers : value)
      (h : host) (trace : list call) :
  plain_headers headers ->
  header_value name headers h trace = (trace, inl (header_of name headers)).
Proof.
  destruct headers; simpl; intros H; try contradiction; try reflexivity.
  unfold bind. rewrite (find_named_plain name items h trace H). reflexivity.
Qed.

Lemma first_named_skips (name : string) (before rest : list value) :
  Forall (fun x => Js.is_string name (Js.field "name" x) = false) before ->
  first_named name (before ++ rest) = first_named name rest.
Proof.
  induction 1 as [ | x xs Hx _ IH]; simpl; [ reflexivity | ].
  rewrite Hx. exact IH.
Qed.

Lemma find_named_hit (name : string) (before after : list value) (hit : value)
      (h : host) (trace : list call) :
  Forall (fun x => Js.nullish x = false) before ->
  Forall (fun x => Js.is_string name (Js.field "name" x) = false) before ->
  Js.nullish hit = false ->
  Js.field "name" hit = VStr name ->
  find_named name (before ++ hit :: after) h trace = (trace, inl hit).
Proof.
  intros Hobjects Hnames Hhit Hname.
  induction before as [ | x xs IH].
  - simpl. unfold bind, get. rewrite Hhit. simpl. rewrite Hname.
    simpl. rewrite String.eqb_refl. reflexivity.
  - inversion Hobjects as [ | ? ? Hx Hxs]; subst.
    inversion Hnames as [ | ? ? Hn Hns]; subst. simpl.
    unfold bind at 1. unfold get. rewrite Hx. simpl.
    rewrite Hn. apply IH; assumption.
Qed.

(** X9: a header is looked up by exact, case-sensitive name and the first
    entry with that name decides: its value is the result, or the empty
    string when the value is missing or falsy; entries after it are not
    looked at.  With no entry of that name the result is the empty
    string. *)
Theorem X9_header_value_takes_first_match :
  forall (name : string) (before after : list value) (hit : value)
         (h : host) (trace : list call),
    Forall (fun x => Js.nullish x = false) before ->
    Forall (fun x => Js.is_string name (Js.field "name" x) = false) before ->
    (Js.nullish hit = false ->
     Js.field "name" hit = VStr name ->
     header_value name (VArr (before ++ hit :: after)) h trace
       = (trace,
          inl (if Js.truthy (Js.field "value" hit)
               then Js.field "value" hit else VStr EmptyString)))
    /\ header_value name (VArr before) h trace = (trace, inl (VStr EmptyString)).
Proof.
  intros name before after hit h trace Hobjects Hnames. split.
  - intros Hhit Hname. simpl. unfold bind.
    rewrite (find_named_hit name before after hit h trace
               Hobjects Hnames Hhit Hname).
    unfold ret, Js.or_else, Js.opt_field. rewrite Hhit. reflexivity.
  - rewrite (header_value_plain name (VArr before) h trace Hobjects).
    unfold header_of.
    replace (first_named name before) with VUndefined; [ reflexivity | ].
    rewrite <- (app_nil_r before).
    rewrite (first_named_skips name before [] Hnames). reflexivity.
Qed.

Lemma X9_header_value_witness :
  header_value "Subject"
    (VArr ([VObj [("name", VStr "subject"); ("value", VStr "lower case")]]
             ++ VObj [("name", VStr "Subject"); ("value", VStr "first")]
             :: [VObj [("name", VStr "Subject"); ("value", VStr "second")]; VNull]))
    sample_host []
  = ([], inl (VStr "first")).
Proof.
  apply (proj1 (X9_header_value_takes_first_match "Subject"
                  [VObj [("name", VStr "subject"); ("value", VStr "lower case")]]
                  [VObj [("name", VStr "Subject"); ("value", VStr "second")]; VNull]
                  (VObj [("name", VStr "Subject"); ("value", VStr "first")])
                  sample_host []
                  ltac:(repeat constructor) ltac:(repeat constructor))).
  - reflexivity.
  - reflexivity.
Defined.

(** ** A listing that succeeds *)

Lemma email_detail_ok (msg detail : value) (h : host) (trace : list call) :
  Js.nullish msg = false ->
  provider h trace (get_request msg) = Resolved detail ->
  Js.nullish detail = false ->
  plain_headers (Js.opt_field "headers" (Js.field "payload" detail)) ->
  email_detail msg h trace
    = ((trace ++ [get_request msg])%list, inl (email_summary msg detail)).
Proof.
  intros Hmsg Hprov Hdetail Hplain.
  unfold email_detail. unfold bind at 1. unfold get at 1. rewrite Hmsg.
  cbn [ret]. unfold bind at 1. unfold await.
  unfold get_request in Hprov. rewrite Hprov.
  unfold bind at 1. unfold get at 1. rewrite Hdetail. cbn [ret]. cbv zeta.
  unfold bind at 1. rewrite (header_value_plain _ _ h _ Hplain).
  unfold bind at 1. rewrite (header_value_plain _ _ h _ Hplain).
  unfold bind at 1. rewrite (header_value_plain _ _ h _ Hplain).
  reflexivity.
Qed.

Lemma promise_all_ok {A B : Type} (f : A -> M B) (c : A -> call) (g : A -> B)
      (items : list A) (h : host) :
  (forall x trace, In x items ->
                   f x h trace = ((trace ++ [c x])%list, inl (g x))) ->
  forall trace,
    promise_all (map f items) h trace
      = ((trace ++ map c items)%list, inl (map g items)).
Proof.
  induction items as [ | x rest IH]; intros Hf trace.
  - simpl. unfold ret. rewrite app_nil_r. reflexivity.
  - simpl. rewrite (Hf x trace (or_introl eq_refl)).
    rewrite IH by (intros y tr Hy; apply Hf; right; exact Hy).
    rewrite <- app_assoc. reflexivity.
Qed.

(** X10: when the list request is answered with message objects and each
    fetch with a message whose header list is absent or an array of header
    objects, [list_emails] and [search_emails] return, as pretty-printed
    JSON, one summary [{id, subject, from, date}] per listed message, in
    the order of the listing, the three headers read from that message's
    fetch. *)
Theorem X10_listing_projects_in_order :
  forall (tool : string) (args : value) (h : host) (trace : list call)
         (data : value) (msgs : list value) (detail : value -> value),
    In tool ["list_emails"; "search_emails"] ->
    provider h trace (list_emails_request args) = Resolved data ->
    Js.nullish data = false ->
    Js.field "messages" data = VArr msgs ->
    Forall (fun msg => Js.nullish msg = false) msgs ->
    (forall msg tr, In msg msgs ->
                    provider h tr (get_request msg) = Resolved (detail msg)) ->
    (forall msg, In msg msgs ->
                 Js.nullish (detail msg) = false
                 /\ plain_headers
                      (Js.opt_field "headers" (Js.field "payload" (detail msg)))) ->
    snd (callTool tool args h trace)
      = inl {| content :=
                 [ {| type := "text";
                      text := Json.stringify
                                (VArr (map (fun msg => email_summary msg (detail msg))
                                           msgs)) |} ];
               isError := None |}.
Proof.
  intros tool args h trace data msgs detail
         Hin Hprov Hdata Hmsgs Hobjects Hfetch Hdetail.
  assert (H : snd (handleListEmails args h trace)
              = inl (success
                       (Json.stringify
                          (VArr (map (fun msg => email_summary msg (detail msg))
                                     msgs))))).
  { rewrite (listing_runs args h trace data msgs Hprov Hdata Hmsgs).
    unfold try_catch, bind.
    rewrite (promise_all_ok email_detail get_request
               (fun msg => email_summary msg (detail msg)) msgs h).
    - reflexivity.
    - intros msg tr Hmsg.
      destruct (Hdetail msg Hmsg) as [Hd Hplain].
      apply email_detail_ok; auto.
      rewrite Forall_forall in Hobjects. apply Hobjects. exact Hmsg. }
  each_tool Hin; exact H.
Qed.

Lemma X10_listing_projects_witness :
  snd (callTool "list_emails" VUndefined sample_host [])
    = inl {| content :=
               [ {| type := "text";
                    text := Json.stringify
                              (VArr [VObj [("id", VStr "m1");
                                           ("subject", VStr "hello");
                                           ("from", VStr EmptyString);
                                           ("date", VStr EmptyString)]]) |} ];
             isError := None |}.
Proof.
  apply (X10_listing_projects_in_order "list_emails" VUndefined sample_host []
           (VObj [("messages", VArr [VObj [("id", VStr "m1")]])])
           [VObj [("id", VStr "m1")]]
           (fun _ => VObj [("payload",
                            VObj [("headers",
                                   VArr [VObj [("name", VStr "Subject");
                                               ("value", VStr "hello")]])])])).
  - simpl. tauto.
  - reflexivity.
  - reflexivity.
  - reflexivity.
  - repeat constructor.
  - intros msg tr _. reflexivity.
  - intros msg _. split; [ reflexivity | ]. simpl. repeat constructor.
Defined.

(** ** The message of [send_email], with and without the optional lines *)

(** X11: for string arguments the message is, joined by CRLF and with no
    blank line: the two fixed headers, the [To] line, a [Cc] line and a
    [Bcc] line only when that argument is present and not empty, the
    [Subject] line, and the body only when it is not empty. *)
Theorem X11_send_email_message_lines :
  forall (to subject body : string) (cc bcc : option string)
         (h : host) (trace : list call),
    message (VStr to) (VStr subject) (VStr body) (env cc) (env bcc) h trace
      = (trace,
         inl (Js.join_strings CRLF
                (["Content-Type: text/html; charset=utf-8";
                  "MIME-Version: 1.0";
                  String.append "To: " to]
                   ++ line_unless_empty "Cc: " (text_of cc)
                   ++ line_unless_empty "Bcc: " (text_of bcc)
                   ++ [String.append "Subject: " subject]
                   ++ line_unless_empty EmptyString body)%list)).
Proof.
  intros to subject body cc bcc h trace.
  destruct cc as [[ | c0 cc] | ]; destruct bcc as [[ | b0 bcc] | ];
    destruct body as [ | d0 body]; reflexivity.
Qed.

(** ** What [create_event] sends *)

(** X12: with an arguments object, [create_event] issues its insert when
    [attendees] is absent or an array: the body carries the six fields,
    [start] and [end] paired with the zone of the host, each attendee as
    an [{email}] record.  With any other [attendees] (an explicit [null],
    a string) no request is issued and the result is the error envelope
    for the TypeError. *)
Theorem X12_create_event_request :
  forall (args : value) (h : host) (trace : list call),
    Js.nullish args = false ->
    (forall emails,
        Js.default_to (VArr []) (Js.field "attendees" args) = VArr emails ->
        fst (handleCreateEvent args h trace)
          = (trace ++
             [Call calendar_events_insert
                (VObj [("calendarId", VStr "primary");
                       ("requestBody",
                        VObj [("summary", Js.field "summary" args);
                              ("location", Js.field "location" args);
                              ("description", Js.field "description" args);
                              ("start", VObj [("dateTime", Js.field "start" args);
                                              ("timeZone", VStr (timeZone h))]);
                              ("end", VObj [("dateTime", Js.field "end" args);
                                            ("timeZone", VStr (timeZone h))]);
                              ("attendees",
                               VArr (map (fun email => VObj [("email", email)])
                                         emails))])])])%list)
    /\ ((forall emails,
            Js.default_to (VArr []) (Js.field "attendees" args) <> VArr emails) ->
        exists t,
          handleCreateEvent args h trace
            = (trace,
               inl {| content :=
                        [ {| type := "text";
                             text := Some ("Error creating event: "
                                             ++ type_error_message h t) |} ];
                      isError := Some true |})).
Proof.
  intros args h trace Hargs. split.
  - intros emails Hatt.
    unfold handleCreateEvent. cbv zeta.
    rewrite (try_bind_ok _ _ _ h trace trace tt)
      by (unfold destructure; rewrite Hargs; reflexivity).
    rewrite (try_bind_ok _ _ _ h trace trace
               (VObj [("dateTime", Js.field "start" args);
                      ("timeZone", VStr (timeZone h))])) by reflexivity.
    rewrite (try_bind_ok _ _ _ h trace trace
               (VObj [("dateTime", Js.field "end" args);
                      ("timeZone", VStr (timeZone h))])) by reflexivity.
    rewrite Hatt.
    rewrite (try_bind_ok _ _ _ h trace trace
               (VArr (map (fun email => VObj [("email", email)]) emails)))
      by reflexivity.
    apply try_request_trace; intros; auto with silent.
  - intros Hatt.
    unfold handleCreateEvent. cbv zeta.
    rewrite (try_bind_ok _ _ _ h trace trace tt)
      by (unfold destructure; rewrite Hargs; reflexivity).
    rewrite (try_bind_ok _ _ _ h trace trace
               (VObj [("dateTime", Js.field "start" args);
                      ("timeZone", VStr (timeZone h))])) by reflexivity.
    rewrite (try_bind_ok _ _ _ h trace trace
               (VObj [("dateTime", Js.field "end" args);
                      ("timeZone", VStr (timeZone h))])) by reflexivity.
    destruct (Js.default_to (VArr []) (Js.field "attendees" args)) as
        [ | | b | n | s | items | fields ] eqn:E;
      try (eexists;
           rewrite (try_bind_err _ _ _ h trace trace (TypeError _))
             by reflexivity;
           apply report_type_error).
    destruct (Hatt items eq_refl).
Qed.

Lemma X12_create_event_witness :
  exists t,
    handleCreateEvent (VObj [("summary", VStr "standup"); ("attendees", VNull)])
      sample_host []
    = ([],
       inl {| content :=
                [ {| type := "text";
                     text := Some ("Error creating event: "
                                     ++ type_error_message sample_host t) |} ];
              isError := Some true |}).
Proof.
  apply (proj2 (X12_create_event_request
                  (VObj [("summary", VStr "standup"); ("attendees", VNull)])
                  sample_host [] eq_refl)).
  intros emails. simpl. discriminate.
Defined.

(** ** What [update_event] sends *)

Lemma update_patch_body (args : value) (h : host) (trace : list call)
      (emails : list value) :
  (Js.truthy (Js.field "attendees" args) = true ->
   Js.field "attendees" args = VArr emails) ->
  update_patch args h trace
    = (trace,
       inl (patch_entry "summary" (Js.field "summary" args)
              (Js.field "summary" args)
            ++ patch_entry "location" (Js.field "location" args)
                 (Js.field "location" args)
            ++ patch_entry "description" (Js.field "description" args)
                 (Js.field "description" args)
            ++ patch_entry "start" (Js.field "start" args)
                 (VObj [("dateTime", Js.field "start" args);
                        ("timeZone", VStr (timeZone h))])
            ++ patch_entry "end" (Js.field "end" args)
                 (VObj [("dateTime", Js.field "end" args);
                        ("timeZone", VStr (timeZone h))])
            ++ patch_entry "attendees" (Js.field "attendees" args)
                 (VArr (map (fun email => VObj [("email", email)]) emails)))%list).
Proof.
  intros Hatt.
  unfold update_patch, set_if, set_zoned_if, set_attendees_if, patch_entry.
  cbv zeta.
  destruct (Js.truthy (Js.field "attendees" args)) eqn:Ha;
    [ rewrite (Hatt eq_refl) | ];
    destruct (Js.truthy (Js.field "summary" args));
    destruct (Js.truthy (Js.field "location" args));
    destruct (Js.truthy (Js.field "description" args));
    destruct (Js.truthy (Js.field "start" args));
    destruct (Js.truthy (Js.field "end" args));
    reflexivity.
Qed.

(** X13: with an arguments object whose [attendees] is falsy or an array,
    [update_event] issues one patch of the primary calendar whose body
    holds, for each truthy argument and in this order: [summary],
    [location] and [description] as given, [start] and [end] paired with
    the zone of the host, [attendees] as [{email}] records.  A truthy
    [attendees] that is not an array ends in the error envelope with no
    request issued. *)
Theorem X13_update_event_request :
  forall (args : value) (h : host) (trace : list call),
    Js.nullish args = false ->
    (forall emails,
        (Js.truthy (Js.field "attendees" args) = true ->
         Js.field "attendees" args = VArr emails) ->
        fst (handleUpdateEvent args h trace)
          = (trace ++
             [Call calendar_events_patch
                (VObj [("calendarId", VStr "primary");
                       ("eventId", Js.field "eventId" args);
                       ("requestBody",
                        VObj (patch_entry "summary" (Js.field "summary" args)
                                (Js.field "summary" args)
                              ++ patch_entry "location" (Js.field "location" args)
                                   (Js.field "location" args)
                              ++ patch_entry "description"
                                   (Js.field "description" args)
                                   (Js.field "description" args)
                              ++ patch_entry "start" (Js.field "start" args)
                                   (VObj [("dateTime", Js.field "start" args);
                                          ("timeZone", VStr (timeZone h))])
                              ++ patch_entry "end" (Js.field "end" args)
                                   (VObj [("dateTime", Js.field "end" args);
                                          ("timeZone", VStr (timeZone h))])
                              ++ patch_entry "attendees"
                                   (Js.field "attendees" args)
                                   (VArr (map (fun email => VObj [("email", email)])
                                              emails)))%list)])])%list)
    /\ (Js.truthy (Js.field "attendees" args) = true ->
        (forall emails, Js.field "attendees" args <> VArr emails) ->
        handleUpdateEvent args h trace
          = (trace,
             inl {| content :=
                      [ {| type := "text";
                           text := Some ("Error updating event: "
                                           ++ type_error_message h
                                                (Js.NotAFunction "attendees.map")) |} ];
                    isError := Some true |})).
Proof.
  intros args h trace Hargs. split.
  - intros emails Hatt.
    unfold handleUpdateEvent. cbv zeta.
    rewrite (try_bind_ok _ _ _ h trace trace tt)
      by (unfold destructure; rewrite Hargs; reflexivity).
    rewrite (try_bind_ok _ _ _ h trace trace _
               (update_patch_body args h trace emails Hatt)).
    apply try_request_trace; intros; auto with silent.
  - intros Htruthy Hshape.
    unfold handleUpdateEvent. cbv zeta.
    rewrite (try_bind_ok _ _ _ h trace trace tt)
      by (unfold destructure; rewrite Hargs; reflexivity).
    rewrite (try_bind_err _ _ _ h trace trace
               (TypeError (Js.NotAFunction "attendees.map"))).
    + apply report_type_error.
    + unfold update_patch, set_if, set_zoned_if, set_attendees_if.
      cbv zeta. rewrite Htruthy.
      destruct (Js.field "attendees" args) as
          [ | | b | n | s | items | fields ] eqn:E;
        try discriminate Htruthy;
        try (destruct (Hshape items eq_refl));
        destruct (Js.truthy (Js.field "start" args));
        destruct (Js.truthy (Js.field "end" args));
        reflexivity.
Qed.

Lemma X13_update_event_witness :
  handleUpdateEvent (VObj [("eventId", VStr "e1"); ("attendees", VStr "a@x.com")])
    sample_host []
  = ([],
     inl {| content := [ {| type := "text";
                            text := Some "Error updating event: TypeError" |} ];
            isError := Some true |}).
Proof.
  apply (proj2 (X13_update_event_request
                  (VObj [("eventId", VStr "e1"); ("attendees", VStr "a@x.com")])
                  sample_host [] eq_refl)).
  - reflexivity.
  - intros emails. simpl. discriminate.
Defined.

(** ** Deleting an event *)

(** X14: when the provider accepts the delete, whatever it answers with,
    [delete_event] reports success with the [eventId] of the arguments:
    the response is not read. *)
Theorem X14_delete_event_echoes_the_argument :
  forall (args : value) (h : host) (trace : list call) (data : value)
         (s : string),
    Js.nullish args = false ->
    provider h trace
      (Call calendar_events_delete
         (VObj [("calendarId", VStr "primary");
                ("eventId", Js.field "eventId" args)])) = Resolved data ->
    Js.to_string (Js.field "eventId" args) = inl s ->
    handleDeleteEvent args h trace
      = ((trace ++ [Call calendar_events_delete
                      (VObj [("calendarId", VStr "primary");
                             ("eventId", Js.field "eventId" args)])])%list,
         inl {| content :=
                  [ {| type := "text";
                       text := Some ("Event deleted successfully. Event ID: " ++ s) |} ];
                isError := None |}).
Proof.
  intros args h trace data s Hargs Hprov Hs.
  unfold handleDeleteEvent. cbv zeta.
  rewrite (try_bind_ok _ _ _ h trace trace tt)
    by (unfold destructure; rewrite Hargs; reflexivity).
  rewrite (try_await_ok _ _ _ h trace data Hprov).
  rewrite (try_bind_ok _ _ _ h _ _ s)
    by (unfold interpolate; rewrite Hs; reflexivity).
  reflexivity.
Qed.

Lemma X14_delete_event_witness :
  handleDeleteEvent (VObj [("eventId", VStr "e1")]) sample_host []
    = ([Call calendar_events_delete
          (VObj [("calendarId", VStr "primary"); ("eventId", VStr "e1")])],
       inl {| content :=
                [ {| type := "text";
                     text := Some "Event deleted successfully. Event ID: e1" |} ];
              isError := None |}).
Proof.
  apply (X14_delete_event_echoes_the_argument
           (VObj [("eventId", VStr "e1")]) sample_host []
           (VObj [("id", VStr "x")]) "e1");
    reflexivity.
Defined.

(** ** Events that cannot be projected *)

Lemma map_sync_stops_at_null (before after : list value) (event : value)
      (h : host) (trace : list call) :
  Forall (fun ev => Js.nullish ev = false) before ->
  Js.nullish event = true ->
  map_sync event_summary (before ++ event :: after) h trace
    = (trace, inr (TypeError (Js.CannotRead event "id"))).
Proof.
  intros Hbefore Hevent.
  induction Hbefore as [ | ev rest Hev _ IH]; simpl.
  - unfold bind at 1. unfold event_summary at 1. unfold bind at 1, get.
    rewrite Hevent. reflexivity.
  - unfold bind at 1. unfold event_summary at 1. unfold bind at 1, get.
    rewrite Hev. simpl. unfold bind at 1. rewrite IH. reflexivity.
Qed.

(** X15: when the items of the events response hold a [null] or
    [undefined] entry, [list_events] returns the error envelope for the
    failed read of its [id] and none of the events before it. *)
Theorem X15_list_events_with_a_null_item :
  forall (args : value) (h : host) (trace : list call) (data : value)
         (before after : list value) (event : value),
    provider h trace (list_events_request h args) = Resolved data ->
    Js.nullish data = false ->
    Js.field "items" data = VArr (before ++ event :: after) ->
    Forall (fun ev => Js.nullish ev = false) before ->
    Js.nullish event = true ->
    handleListEvents args h trace
      = ((trace ++ [list_events_request h args])%list,
         inl {| content :=
                  [ {| type := "text";
                       text := Some ("Error fetching calendar events: "
                                       ++ type_error_message h
                                            (Js.CannotRead event "id")) |} ];
                isError := Some true |}).
Proof.
  intros args h trace data before after event
         Hprov Hdata Hitems Hbefore Hevent.
  rewrite list_events_runs.
  rewrite (try_await_ok _ _ _ h trace data Hprov).
  rewrite (try_bind_ok _ _ _ h _ _ (VArr (before ++ event :: after)))
    by (unfold get; rewrite Hdata, Hitems; reflexivity).
  rewrite (try_bind_err _ _ _ h
             (trace ++ [list_events_request h args])%list
             (trace ++ [list_events_request h args])%list
             (TypeError (Js.CannotRead event "id"))).
  - apply report_type_error.
  - unfold project_items, bind.
    rewrite (map_sync_stops_at_null before after event h _ Hbefore Hevent).
    reflexivity.
Qed.

Lemma X15_null_item_witness :
  handleListEvents VUndefined null_item_host []
    = ([list_events_request null_item_host VUndefined],
       inl {| content :=
                [ {| type := "text";
                     text := Some "Error fetching calendar events: TypeError" |} ];
              isError := Some true |}).
Proof.
  apply (X15_list_events_with_a_null_item VUndefined null_item_host []
           (VObj [("items", VArr [VObj [("id", VStr "e1")]; VNull])])
           [VObj [("id", VStr "e1")]] [] VNull).
  - reflexivity.
  - reflexivity.
  - reflexivity.
  - repeat constructor.
  - reflexivity.
Defined.

(** ** The encoding of the message can be read back *)

Local Abbreviation six0 a := (N.shiftr a 2).
Local Abbreviation six1 a b := (N.lor (N.shiftl (N.land a 3) 4) (N.shiftr b 4)).
Local Abbreviation six2 b c := (N.lor (N.shiftl (N.land b 15) 2) (N.shiftr c 6)).
Local Abbreviation six3 c := (N.land c 63).

Lemma in_byte_values (n : N) : (n < 256)%N -> In n byte_values.
Proof.
  intros Hn. unfold byte_values.
  rewrite <- (N2Nat.id n). apply in_map. apply in_seq. lia.
Qed.

Lemma for_all_bytes (P : N -> bool) :
  forallb P byte_values = true -> forall n, (n < 256)%N -> P n = true.
Proof.
  intros H n Hn. rewrite forallb_forall in H. apply H.
  apply in_byte_values. exact Hn.
Qed.

Lemma for_all_byte_pairs (P : N -> N -> bool) :
  forallb (fun a => forallb (P a) byte_values) byte_values = true ->
  forall a b, (a < 256)%N -> (b < 256)%N -> P a b = true.
Proof.
  intros H a b Ha Hb.
  apply (for_all_bytes (P a)); [ | exact Hb ].
  apply (for_all_bytes (fun a => forallb (P a) byte_values) H a Ha).
Qed.

Lemma ascii_is_a_byte (a : ascii) : (N_of_ascii a < 256)%N.
Proof. apply N_ascii_bounded. Qed.

(** Each of the 64 digits, made URL-safe, is read back as its index and
    is not the padding character. *)
Lemma url_digit_reads_back :
  forall n, (n < 64)%N ->
    Base64Url.sextet (url_of (Base64.digit n)) = Some n
    /\ Ascii.eqb (url_of (Base64.digit n)) "="%char = false.
Proof.
  assert (H : forallb
                (fun n =>
                   orb (negb (N.ltb n 64))
                       (match Base64Url.sextet (url_of (Base64.digit n)) with
                        | Some m => N.eqb m n
                        | None => false
                        end
                        && negb (Ascii.eqb (url_of (Base64.digit n)) "="%char)))
                byte_values = true) by (vm_compute; reflexivity).
  intros n Hn.
  pose proof (for_all_bytes _ H n ltac:(lia)) as Hc. cbv beta in Hc.
  apply N.ltb_lt in Hn. rewrite Hn in Hc. simpl in Hc.
  apply andb_true_iff in Hc. destruct Hc as [Hs Hp].
  destruct (Base64Url.sextet (url_of (Base64.digit n))) as [m | ];
    [ | discriminate Hs ].
  apply N.eqb_eq in Hs. subst m. split; [ reflexivity | ].
  apply negb_true_iff. exact Hp.
Qed.

(** The shifts and masks of the encoder and of the decoder undo each
    other, byte by byte. *)
Lemma sextets_of_a_byte :
  forall a, (a < 256)%N ->
    (six0 a < 64)%N /\ (six3 a < 64)%N
    /\ (N.shiftl (N.land a 3) 4 < 64)%N
    /\ (N.shiftl (N.land a 15) 2 < 64)%N
    /\ Base64Url.byte1 (six0 a) (N.shiftl (N.land a 3) 4) = a
    /\ N.lor (N.shiftl (N.shiftr a 4) 4) (N.land a 15) = a
    /\ N.shiftr (N.shiftl (N.land a 15) 2) 2 = N.land a 15.
Proof.
  assert (H : forallb
                (fun a =>
                   N.ltb (six0 a) 64 && N.ltb (six3 a) 64
                   && N.ltb (N.shiftl (N.land a 3) 4) 64
                   && N.ltb (N.shiftl (N.land a 15) 2) 64
                   && N.eqb (Base64Url.byte1 (six0 a) (N.shiftl (N.land a 3) 4)) a
                   && N.eqb (N.lor (N.shiftl (N.shiftr a 4) 4) (N.land a 15)) a
                   && N.eqb (N.shiftr (N.shiftl (N.land a 15) 2) 2) (N.land a 15))
                byte_values = true) by (vm_compute; reflexivity).
  intros a Ha.
  pose proof (for_all_bytes _ H a Ha) as Hc. cbv beta in Hc.
  repeat (apply andb_true_iff in Hc; destruct Hc as [Hc ?]).
  repeat match goal with
         | X : N.ltb _ _ = true |- _ => apply N.ltb_lt in X
         | X : N.eqb _ _ = true |- _ => apply N.eqb_eq in X
         end.
  repeat split; assumption.
Qed.

Lemma sextets_of_two_bytes :
  forall a b, (a < 256)%N -> (b < 256)%N ->
    (six1 a b < 64)%N /\ (six2 a b < 64)%N
    /\ Base64Url.byte1 (six0 a) (six1 a b) = a
    /\ N.land (six1 a b) 15 = N.shiftr b 4
    /\ N.shiftr (six2 a b) 2 = N.land a 15
    /\ Base64Url.byte3 (six2 a b) (six3 b) = b.
Proof.
  assert (H : forallb
                (fun a =>
                   forallb
                     (fun b =>
                        N.ltb (six1 a b) 64 && N.ltb (six2 a b) 64
                        && N.eqb (Base64Url.byte1 (six0 a) (six1 a b)) a
                        && N.eqb (N.land (six1 a b) 15) (N.shiftr b 4)
                        && N.eqb (N.shiftr (six2 a b) 2) (N.land a 15)
                        && N.eqb (Base64Url.byte3 (six2 a b) (six3 b)) b)
                     byte_values)
                byte_values = true) by (vm_compute; reflexivity).
  intros a b Ha Hb.
  pose proof (for_all_byte_pairs _ H a b Ha Hb) as Hc. cbv beta in Hc.
  repeat (apply andb_true_iff in Hc; destruct Hc as [Hc ?]).
  repeat match goal with
         | X : N.ltb _ _ = true |- _ => apply N.ltb_lt in X
         | X : N.eqb _ _ = true |- _ => apply N.eqb_eq in X
         end.
  repeat split; assumption.
Qed.

Lemma url_chain_cons (d : ascii) (s : string) :
  Base64.replace_all "/"%char "_"%char
    (Base64.replace_all "+"%char "-"%char (String d s))
  = String (url_of d)
      (Base64.replace_all "/"%char "_"%char
         (Base64.replace_all "+"%char "-"%char s)).
Proof. reflexivity. Qed.

Lemma strip_cons (x : ascii) (y : string) :
  Ascii.eqb x "="%char = false ->
  Base64.strip_trailing "="%char (String x y)
    = String x (Base64.strip_trailing "="%char y).
Proof.
  intros Hx. simpl.
  destruct (Base64.strip_trailing "="%char y); [ rewrite Hx | ]; reflexivity.
Qed.

Lemma url_digit_is_no_padding (n : N) :
  (n < 64)%N -> Ascii.eqb (url_of (Base64.digit n)) "="%char = false.
Proof. intros Hn. apply (url_digit_reads_back n Hn). Qed.

(** The encoding, three bytes at a time and at the end of the message. *)
Lemma encode_url_group (a b c : ascii) (rest : string) :
  Base64.encode_url (String a (String b (String c rest)))
    = String (url_of (Base64.digit (six0 (N_of_ascii a))))
        (String (url_of (Base64.digit (six1 (N_of_ascii a) (N_of_ascii b))))
           (String (url_of (Base64.digit (six2 (N_of_ascii b) (N_of_ascii c))))
              (String (url_of (Base64.digit (six3 (N_of_ascii c))))
                 (Base64.encode_url rest)))).
Proof.
  pose proof (sextets_of_a_byte _ (ascii_is_a_byte a)) as [Ha0 _].
  pose proof (sextets_of_a_byte _ (ascii_is_a_byte c)) as [_ [Hc3 _]].
  pose proof (sextets_of_two_bytes _ _ (ascii_is_a_byte a) (ascii_is_a_byte b))
    as [Hab _].
  pose proof (sextets_of_two_bytes _ _ (ascii_is_a_byte b) (ascii_is_a_byte c))
    as [_ [Hbc _]].
  unfold Base64.encode_url. cbn [Base64.encode].
  unfold Base64.sextets3. cbn [append].
  rewrite !url_chain_cons.
  rewrite !strip_cons by (apply url_digit_is_no_padding; assumption).
  reflexivity.
Qed.

Lemma encode_url_two (a b : ascii) :
  Base64.encode_url (String a (String b EmptyString))
    = String (url_of (Base64.digit (six0 (N_of_ascii a))))
        (String (url_of (Base64.digit (six1 (N_of_ascii a) (N_of_ascii b))))
           (String (url_of (Base64.digit
                              (N.shiftl (N.land (N_of_ascii b) 15) 2)))
              EmptyString)).
Proof.
  pose proof (sextets_of_a_byte _ (ascii_is_a_byte a)) as [Ha0 _].
  pose proof (sextets_of_a_byte _ (ascii_is_a_byte b)) as [_ [_ [_ [Hb2 _]]]].
  pose proof (sextets_of_two_bytes _ _ (ascii_is_a_byte a) (ascii_is_a_byte b))
    as [Hab _].
  unfold Base64.encode_url. cbn [Base64.encode].
  unfold Base64.sextets2.
  rewrite !url_chain_cons.
  rewrite !strip_cons by (apply url_digit_is_no_padding; assumption).
  reflexivity.
Qed.

Lemma encode_url_one (a : ascii) :
  Base64.encode_url (String a EmptyString)
    = String (url_of (Base64.digit (six0 (N_of_ascii a))))
        (String (url_of (Base64.digit
                           (N.shiftl (N.land (N_of_ascii a) 3) 4)))
           EmptyString).
Proof.
  pose proof (sextets_of_a_byte _ (ascii_is_a_byte a)) as [Ha0 [_ [Ha1 _]]].
  unfold Base64.encode_url. cbn [Base64.encode].
  unfold Base64.sextets1.
  rewrite !url_chain_cons.
  rewrite !strip_cons by (apply url_digit_is_no_padding; assumption).
  reflexivity.
Qed.

(** Induction on a string three characters at a time. *)
Lemma string_ind3 (P : string -> Prop) :
  P EmptyString ->
  (forall a, P (String a EmptyString)) ->
  (forall a b, P (String a (String b EmptyString))) ->
  (forall a b c rest, P rest -> P (String a (String b (String c rest)))) ->
  forall s, P s.
Proof.
  intros H0 H1 H2 H3.
  assert (H : forall s, P s /\ (forall a, P (String a s))
                        /\ (forall a b, P (String a (String b s)))).
  { induction s as [ | c s [IH0 [IH1 IH2]]].
    - repeat split; auto.
    - repeat split; auto. }
  intros s. apply H.
Qed.

Lemma byte_of_ascii (a : ascii) : Base64Url.byte (N_of_ascii a) = a.
Proof. apply ascii_N_embedding. Qed.

(** X16: decoding the [raw] of a message as unpadded base64url gives the
    message back, byte for byte: the rewriting into the URL-safe alphabet
    and the removal of the padding lose nothing. *)
Theorem X16_raw_decodes_to_the_message :
  forall msg : string,
    Base64Url.decode (Base64.encode_url msg) = Some msg.
Proof.
  induction msg as [ | a | a b | a b c rest IH] using string_ind3.
  - reflexivity.
  - rewrite encode_url_one.
    pose proof (sextets_of_a_byte _ (ascii_is_a_byte a))
      as [Ha0 [_ [Ha1 [_ [Hbyte _]]]]].
    cbn [Base64Url.decode].
    rewrite (proj1 (url_digit_reads_back _ Ha0)).
    rewrite (proj1 (url_digit_reads_back _ Ha1)).
    rewrite Hbyte, byte_of_ascii. reflexivity.
  - rewrite encode_url_two.
    pose proof (sextets_of_a_byte _ (ascii_is_a_byte a)) as [Ha0 _].
    pose proof (sextets_of_a_byte _ (ascii_is_a_byte b))
      as [_ [_ [_ [Hb2 [_ [Hjoin Hshift]]]]]].
    pose proof (sextets_of_two_bytes _ _ (ascii_is_a_byte a) (ascii_is_a_byte b))
      as [Hab [_ [Hbyte1 [Hland _]]]].
    cbn [Base64Url.decode].
    rewrite (proj1 (url_digit_reads_back _ Ha0)).
    rewrite (proj1 (url_digit_reads_back _ Hab)).
    rewrite (proj1 (url_digit_reads_back _ Hb2)).
    rewrite Hbyte1. unfold Base64Url.byte2.
    rewrite Hland, Hshift, Hjoin, !byte_of_ascii. reflexivity.
  - rewrite encode_url_group.
    pose proof (sextets_of_a_byte _ (ascii_is_a_byte a)) as [Ha0 _].
    pose proof (sextets_of_a_byte _ (ascii_is_a_byte b))
      as [_ [_ [_ [_ [_ [Hjoin _]]]]]].
    pose proof (sextets_of_a_byte _ (ascii_is_a_byte c)) as [_ [Hc3 _]].
    pose proof (sextets_of_two_bytes _ _ (ascii_is_a_byte a) (ascii_is_a_byte b))
      as [Hab [_ [Hbyte1 [Hland _]]]].
    pose proof (sextets_of_two_bytes _ _ (ascii_is_a_byte b) (ascii_is_a_byte c))
      as [_ [Hbc [_ [_ [Hshift Hbyte3]]]]].
    cbn [Base64Url.decode].
    rewrite (proj1 (url_digit_reads_back _ Ha0)).
    rewrite (proj1 (url_digit_reads_back _ Hab)).
    rewrite (proj1 (url_digit_reads_back _ Hbc)).
    rewrite (proj1 (url_digit_reads_back _ Hc3)).
    rewrite IH.
    rewrite Hbyte1, Hbyte3. unfold Base64Url.byte2.
    rewrite Hland, Hshift, Hjoin, !byte_of_ascii. reflexivity.
Qed.

Lemma url_digit_is_url_safe (n : N) :
  (n < 64)%N -> url_safe (url_of (Base64.digit n)) = true.
Proof.
  intros Hn. unfold url_safe.
  rewrite (proj1 (url_digit_reads_back n Hn)). reflexivity.
Qed.

(** X17: the [raw] of a message consists of letters, digits, [-] and [_]
    only, and has the length of unpadded base64: the number of bytes times
    four thirds, rounded up. *)
Theorem X17_raw_alphabet_and_length :
  forall msg : string,
    all_chars url_safe (Base64.encode_url msg) = true
    /\ String.length (Base64.encode_url msg)
       = (4 * String.length msg + 2) / 3.
Proof.
  induction msg as [ | a | a b | a b c rest [IHsafe IHlen]] using string_ind3.
  - split; reflexivity.
  - rewrite encode_url_one.
    pose proof (sextets_of_a_byte _ (ascii_is_a_byte a)) as [Ha0 [_ [Ha1 _]]].
    split; [ | reflexivity ]. cbn [all_chars].
    rewrite !url_digit_is_url_safe by assumption. reflexivity.
  - rewrite encode_url_two.
    pose proof (sextets_of_a_byte _ (ascii_is_a_byte a)) as [Ha0 _].
    pose proof (sextets_of_a_byte _ (ascii_is_a_byte b)) as [_ [_ [_ [Hb2 _]]]].
    pose proof (sextets_of_two_bytes _ _ (ascii_is_a_byte a) (ascii_is_a_byte b))
      as [Hab _].
    split; [ | reflexivity ]. cbn [all_chars].
    rewrite !url_digit_is_url_safe by assumption. reflexivity.
  - rewrite encode_url_group.
    pose proof (sextets_of_a_byte _ (ascii_is_a_byte a)) as [Ha0 _].
    pose proof (sextets_of_a_byte _ (ascii_is_a_byte c)) as [_ [Hc3 _]].
    pose proof (sextets_of_two_bytes _ _ (ascii_is_a_byte a) (ascii_is_a_byte b))
      as [Hab _].
    pose proof (sextets_of_two_bytes _ _ (ascii_is_a_byte b) (ascii_is_a_byte c))
      as [_ [Hbc _]].
    split.
    + cbn [all_chars].
      rewrite !url_digit_is_url_safe by assumption. exact IHsafe.
    + cbn [String.length]. rewrite IHlen.
      replace (4 * S (S (S (String.length rest))) + 2)
        with (4 * 3 + (4 * String.length rest + 2)) by lia.
      rewrite Nat.div_add_l by discriminate. lia.
Qed.

Example decode_url_subjects :
  Base64Url.decode "c3ViamVjdHM_X2Q" = Some "subjects?_d".
Proof. reflexivity. Qed.

(** ** Starting up *)

(** X18: the server starts exactly when the three credential variables
    are all set and none of them is the empty string; otherwise the module
    throws before anything is served. *)
Theorem X18_startup_needs_three_credentials :
  forall (id secret token : option string),
    (startup (env id) (env secret) (env token) = inl tt
     <-> (exists i s t,
             id = Some i /\ secret = Some s /\ token = Some t
             /\ i <> EmptyString /\ s <> EmptyString /\ t <> EmptyString))
    /\ (startup (env id) (env secret) (env token) = inl tt
        \/ startup (env id) (env secret) (env token)
           = inr "Required Google OAuth credentials not found in environment variables").
Proof.
  intros id secret token. split.
  - split.
    + destruct id as [[ | i0 i] | ]; destruct secret as [[ | s0 s] | ];
        destruct token as [[ | t0 t] | ]; simpl; intros H; try discriminate H.
      eexists _, _, _. repeat split; discriminate.
    + intros [i [s [t [-> [-> [-> [Hi [Hs Ht]]]]]]]].
      destruct i; [ contradiction | ]. destruct s; [ contradiction | ].
      destruct t; [ contradiction | ]. reflexivity.
  - unfold startup.
    destruct (negb (Js.truthy (env id)) || negb (Js.truthy (env secret))
              || negb (Js.truthy (env token))); [ right | left ]; reflexivity.
Qed.

(** ** A rejection that cannot be reported *)

Lemma rejected_with_nothing (c0 : call) (k : value -> M ToolResult)
      (prefix : string) (h : host) (trace : list call) (c : call)
      (outcome : ToolResult + thrown) (e : value) :
  (forall data, extends (k data)) ->
  try_catch (bind (await c0) k) (report prefix) h trace
    = ((trace ++ [c])%list, outcome) ->
  provider h trace c = Rejected e ->
  Js.nullish e = true ->
  outcome = inr (TypeError (Js.CannotRead e "message")).
Proof.
  intros Hk Hrun Hprov He.
  destruct (provider h trace c0) as [data | reason] eqn:E.
  - exfalso.
    rewrite (try_await_ok _ _ _ h trace data E) in Hrun.
    assert (Hext : extends (try_catch (k data) (report prefix))).
    { apply extends_try_catch; [ apply Hk | ].
      intros e0. apply extends_silent, silent_report. }
    destruct (Hext h (trace ++ [c0])%list) as [more Hmore].
    rewrite Hrun in Hmore. simpl in Hmore.
    rewrite <- app_assoc in Hmore. apply app_inv_head in Hmore.
    simpl in Hmore. inversion Hmore; subst c0.
    rewrite E in Hprov. discriminate Hprov.
  - rewrite (try_await_err _ _ _ h trace reason E) in Hrun.
    pose proof (f_equal fst Hrun) as Hfst.
    rewrite silent_report in Hfst. simpl in Hfst.
    apply app_inv_head in Hfst. inversion Hfst; subst c0.
    rewrite E in Hprov. inversion Hprov; subst reason.
    revert Hrun. unfold report, bind, error_message, get. rewrite He. simpl.
    intros Hrun. inversion Hrun. reflexivity.
Qed.

(** X19: the catch blocks read [error.message] unguarded.  When the one
    issued request of a tool is rejected with [null] or [undefined], that
    read throws inside the catch block and the handler ends with the
    TypeError instead of a tool result. *)
Theorem X19_null_rejection_escapes :
  forall (tool : string) (arguments : value) (h : host) (trace : list call)
         (outcome : ToolResult + thrown) (c : call) (e : value),
    In tool (map name tools) ->
    callTool tool arguments h trace = ((trace ++ [c])%list, outcome) ->
    provider h trace c = Rejected e ->
    Js.nullish e = true ->
    outcome = inr (TypeError (Js.CannotRead e "message")).
Proof.
  intros tool arguments h trace outcome c e Hin Hrun Hprov He.
  revert Hrun.
  each_tool Hin; cbv [callTool String.eqb Ascii.eqb Bool.eqb];
    match goal with
    | |- ?handler arguments h trace = _ -> _ => unfold handler
    end;
    cbv zeta;
    try (fold (handleListEvents arguments); rewrite list_events_runs);
    repeat (run_pre h trace;
            [ | intros Hrun; destruct (report_issues_nothing _ _ _ _ _ _ Hrun) ]);
    intros Hrun;
    refine (rejected_with_nothing _ _ _ h trace c outcome e _ Hrun Hprov He);
    first [ exact extends_after_listing
          | intros data; apply extends_silent; silence ].
Qed.

Lemma X19_null_rejection_witness :
  snd (callTool "delete_event" (VObj [("eventId", VStr "e1")])
         null_rejecting_host [])
    = inr (TypeError (Js.CannotRead VNull "message")).
Proof.
  exact (X19_null_rejection_escapes
           "delete_event" (VObj [("eventId", VStr "e1")]) null_rejecting_host []
           _ _ VNull
           (or_intror (or_intror (or_intror (or_intror (or_intror
              (or_intror (or_intror (or_introl eq_refl))))))))
           eq_refl eq_refl eq_refl).
Defined.

Lemma X18_startup_witness :
  startup (env (Some "client-id")) (env (Some "client-secret"))
          (env (Some "refresh-token")) = inl tt.
Proof.
  apply (proj2 (proj1 (X18_startup_needs_three_credentials
                         (Some "client-id") (Some "client-secret")
                         (Some "refresh-token")))).
  exists "client-id", "client-secret", "refresh-token".
  repeat split; discriminate.
Defined.

(** ** The empty listing, both ways *)

Lemma stringify_array_empty (items : list value) :
  Json.stringify (VArr items) = Some "[]" -> items = [].
Proof.
  destruct items as [ | v rest]; [ reflexivity | ].
  unfold Json.stringify. cbn [Json.serialize map]. unfold Json.newline.
  cbn [append]. intros H. inversion H.
Qed.

Lemma promise_all_length {A : Type} (ps : list (M A)) :
  forall (h : host) (trace trace' : list call) (values : list A),
    promise_all ps h trace = (trace', inl values) ->
    List.length values = List.length ps.
Proof.
  induction ps as [ | p rest IH]; intros h trace trace' values H.
  - simpl in H. inversion H. reflexivity.
  - simpl in H.
    destruct (p h trace) as [trace1 [a | e]].
    + destruct (promise_all rest h trace1) as [trace2 [others | e]] eqn:E;
        inversion H; subst. simpl. f_equal. eapply IH. eassumption.
    + destruct (promise_all rest h trace1) as [trace2 rs]. inversion H.
Qed.

Lemma report_is_no_success (prefix : string) (e : thrown) (h : host)
      (trace trace' : list call) (t : option string) :
  report prefix e h trace <> (trace', inl (success t)).
Proof.
  intros H.
  destruct (report_outcome prefix e h trace (success t)) as [s Hs].
  - rewrite H. reflexivity.
  - discriminate Hs.
Qed.

(** A listing whose text is the empty array had nothing listed. *)
Lemma listed_nothing :
  forall (args : value) (h : host) (trace trace' : list call),
    handleListEmails args h trace = (trace', inl (success (Some "[]"))) ->
    exists data,
      provider h trace (list_emails_request args) = Resolved data
      /\ Js.nullish data = false
      /\ (Js.truthy (Js.field "messages" data) = false
          \/ Js.field "messages" data = VArr []).
Proof.
  intros args h trace trace' H.
  assert (Hrun : handleListEmails args h trace
                 = try_catch
                     (response <- await (list_emails_request args) ;;
                      listed <- get "messages" response ;;
                      emailDetails <-
                        match Js.or_else listed (VArr []) with
                        | VArr msgs => promise_all (map email_detail msgs)
                        | _ => throw (TypeError (Js.NotAFunction "messages.map"))
                        end ;;
                      ret (success (Json.stringify (VArr emailDetails))))
                     (report "Error fetching emails: ") h trace)
    by reflexivity.
  rewrite Hrun in H. clear Hrun.
  destruct (provider h trace (list_emails_request args)) as [data | reason] eqn:E.
  2: { rewrite (try_await_err _ _ _ h trace reason E) in H.
       destruct (report_is_no_success _ _ _ _ _ _ H). }
  rewrite (try_await_ok _ _ _ h trace data E) in H.
  exists data. split; [ reflexivity | ].
  destruct (Js.nullish data) eqn:Hdata.
  { rewrite (try_bind_err _ _ _ h _ _ (TypeError (Js.CannotRead data "messages")))
      in H by (unfold get; rewrite Hdata; reflexivity).
    destruct (report_is_no_success _ _ _ _ _ _ H). }
  split; [ reflexivity | ].
  rewrite (try_bind_ok _ _ _ h _ _ (Js.field "messages" data)) in H
    by (unfold get; rewrite Hdata; reflexivity).
  unfold Js.or_else in H.
  destruct (Js.truthy (Js.field "messages" data)) eqn:Htruthy;
    [ | left; reflexivity ].
  right.
  destruct (Js.field "messages" data) as [ | | b | n | s | msgs | fields ];
    try (rewrite (try_bind_err _ _ _ h _ _
                    (TypeError (Js.NotAFunction "messages.map")))
          in H by reflexivity;
         destruct (report_is_no_success _ _ _ _ _ _ H)).
  unfold try_catch, bind in H.
  destruct (promise_all (map email_detail msgs) h
              (trace ++ [list_emails_request args])%list)
    as [trace1 [details | e]] eqn:Hall.
  - cbn [ret] in H. inversion H as [[Ht Htext]].
    apply stringify_array_empty in Htext. subst details.
    apply promise_all_length in Hall. rewrite length_map in Hall.
    destruct msgs; [ reflexivity | discriminate Hall ].
  - destruct (report_is_no_success _ _ _ _ _ _ H).
Qed.

(** C4, amended: whatever the arguments, [handleListEmails] returns the
    single text ["[]"] with [isError] not set exactly when the provider
    answers the list request with nothing listed ([messages] missing or
    falsy, or an empty array); it then issues that one request and fetches
    no message.  The request carries the [maxResults] of the arguments
    when it is truthy and 10 otherwise, so [maxResults: 0] goes out as 10
    and gives ["[]"] only when nothing is listed. *)
Theorem C4_empty_array_exactly_when_nothing_listed :
  forall (args : value) (h : host) (trace : list call),
    (forall data,
        provider h trace (list_emails_request args) = Resolved data ->
        Js.nullish data = false ->
        (Js.truthy (Js.field "messages" data) = false
         \/ Js.field "messages" data = VArr []) ->
        handleListEmails args h trace
          = ((trace ++ [list_emails_request args])%list,
             inl {| content := [ {| type := "text"; text := Some "[]" |} ];
                    isError := None |}))
    /\ (forall trace',
           handleListEmails args h trace
             = (trace',
                inl {| content := [ {| type := "text"; text := Some "[]" |} ];
                       isError := None |}) ->
           exists data,
             provider h trace (list_emails_request args) = Resolved data
             /\ Js.nullish data = false
             /\ (Js.truthy (Js.field "messages" data) = false
                 \/ Js.field "messages" data = VArr []))
    /\ Js.field "maxResults" (params (list_emails_request args))
       = (if Js.truthy (Js.opt_field "maxResults" args)
          then Js.opt_field "maxResults" args else VNum 10)
    /\ (Js.opt_field "maxResults" args = VNum 0 ->
        Js.field "maxResults" (params (list_emails_request args)) = VNum 10).
Proof.
  intros args h trace. split; [ | split; [ | split ] ].
  - intros data Hprov Hdata Hmsgs.
    exact (empty_listing args h trace data Hprov Hdata Hmsgs).
  - intros trace' H. exact (listed_nothing args h trace trace' H).
  - reflexivity.
  - intros Hzero. unfold list_emails_request. cbn [params Js.field Js.lookup].
    cbv [String.eqb Ascii.eqb Bool.eqb]. rewrite Hzero. reflexivity.
Qed.

Lemma C4_empty_array_witness :
  handleListEmails (VObj [("maxResults", VNum 0)]) empty_host []
    = ([list_emails_request (VObj [("maxResults", VNum 0)])],
       inl {| content := [ {| type := "text"; text := Some "[]" |} ];
              isError := None |})
  /\ (exists data,
         provider empty_host [] (list_emails_request (VObj [("maxResults", VNum 0)]))
           = Resolved data
         /\ Js.nullish data = false
         /\ (Js.truthy (Js.field "messages" data) = false
             \/ Js.field "messages" data = VArr []))
  /\ Js.field "maxResults"
       (params (list_emails_request (VObj [("maxResults", VNum 0)]))) = VNum 10.
Proof.
  pose proof (C4_empty_array_exactly_when_nothing_listed
                (VObj [("maxResults", VNum 0)]) empty_host [])
    as [Hforward [Hconverse [_ Hzero]]].
  split; [ | split ].
  - apply (Hforward (VObj [])).
    + reflexivity.
    + reflexivity.
    + left. reflexivity.
  - apply (Hconverse [list_emails_request (VObj [("maxResults", VNum 0)])]).
    reflexivity.
  - apply Hzero. reflexivity.
Defined.

(** ** The patch of [update_event] *)


